(** * Turnus: the authentication flow of JWTConfig/app2.py

    A shallow embedding of the register / login / protected / logout
    handlers and of the [token_required] decorator, together with the
    properties the specification states about them.

    The handlers run against three things the Python code reaches through
    libraries: a MySQL table [TurnusUsers], werkzeug's password hashing and
    the [jwt] package.  The table and the connections are modelled as an
    explicit store threaded through a state-and-exception monad; the hash
    functions, the MAC and the segment codecs of the token format are
    section variables, with the laws the proofs rely on stated as
    hypotheses.  Time is the clock read in whole seconds since the epoch:
    [jwt.encode] keeps the whole seconds of the datetime it is given, and
    an integer [exp] is at or before the clock exactly when it is at or
    before the clock's whole seconds. *)

From Stdlib Require Import ZArith String Ascii List Bool Lia.
From stdpp Require Import base option strings gmap countable pretty.

Local Open Scope Z_scope.
Local Open Scope string_scope.
Local Open Scope list_scope.

(** ** Rows, requests and responses *)

(** A row of table [TurnusUsers]: the columns the INSERT of [register] names,
    and the [id] column [login] reads back. *)
Record user_row := {
  row_id : Z;
  row_username : string;
  row_password : string
}.

Inductive http_method := GET | HEAD | POST.

(** flask's [request]: the form fields, the cookies, and the [user_id]
    attribute that [token_required] attaches. *)
Record Request := {
  method : http_method;
  form : list (string * string);
  cookies : list (string * string);
  request_user_id : option Z
}.

Inductive endpoint := ep_register | ep_login | ep_protected | ep_logout.

(** [url_for]: the rule each [@app.route] binds to the view function. *)
Definition url_for (e : endpoint) : string :=
  match e with
  | ep_register => "/register"
  | ep_login => "/login"
  | ep_protected => "/protected"
  | ep_logout => "/logout"
  end.

Inductive response_body :=
| Text (s : string)
| Template (name : string) (context : list (string * Z))
| RedirectPage (target : string).

Inductive cookie_op :=
| SetCookie (name value : string)
| DeleteCookie (name : string).

Record Response := {
  status : Z;
  location : option string;
  body : response_body;
  set_cookies : list cookie_op
}.

(** A view function returning [(text, code)]. *)
Definition text_response (s : string) (code : Z) : Response :=
  {| status := code; location := None; body := Text s; set_cookies := [] |}.

Definition render_template (name : string) (context : list (string * Z))
  : Response :=
  {| status := 200; location := None; body := Template name context;
     set_cookies := [] |}.

Definition redirect (target : string) : Response :=
  {| status := 302; location := Some target; body := RedirectPage target;
     set_cookies := [] |}.

Definition set_cookie (resp : Response) (name value : string) : Response :=
  {| status := status resp; location := location resp; body := body resp;
     set_cookies := set_cookies resp ++ [SetCookie name value] |}.

Definition delete_cookie (resp : Response) (name : string) : Response :=
  {| status := status resp; location := location resp; body := body resp;
     set_cookies := set_cookies resp ++ [DeleteCookie name] |}.

(** [d.get(k)] on the form and cookie dictionaries. *)
Fixpoint dict_get (d : list (string * string)) (k : string) : option string :=
  match d with
  | [] => None
  | (k', v) :: d' => if String.eqb k' k then Some v else dict_get d' k
  end.

(** ** The store and the monad of a request *)

Inductive statement :=
| SELECT_by_username (u : string)
| INSERT_user (u hashed : string).

(** What a request does to the outside: the statements that reached the
    server and the calls of [jwt.decode]. *)
Inductive event :=
| EvConnect (h : nat)
| EvExecute (h : nat) (q : statement)
| EvCommit (h : nat)
| EvClose (h : nat)
| EvDecode (token : string).

(** The state shared by all requests.  [connections] maps each open
    connection to the rows it has inserted and not yet committed;
    [faults] lists the store round trips (counted by [ticks]) at which the
    server or the network fails. *)
Record world := {
  TurnusUsers : list user_row;
  next_id : Z;
  next_conn : nat;
  connections : gmap nat (list user_row);
  log : list event;
  ticks : nat;
  faults : list nat
}.

Inductive exn :=
| BadRequestKeyError (k : string)
| KeyError (k : string)
| AttributeError (k : string)
| NotImplementedError
| OverflowError
| DatabaseError.

Inductive outcome (A : Type) :=
| Ret (a : A)
| Raise (e : exn).
Arguments Ret {A} a.
Arguments Raise {A} e.

Definition M (A : Type) : Type := world -> outcome A * world.

Definition ret {A} (a : A) : M A := fun w => (Ret a, w).
Definition raise {A} (e : exn) : M A := fun w => (Raise e, w).
Definition bind {A B} (m : M A) (k : A -> M B) : M B :=
  fun w => match m w with
           | (Ret a, w') => k a w'
           | (Raise e, w') => (Raise e, w')
           end.

Declare Scope req_scope.
Delimit Scope req_scope with req.
Notation "x <- m ;; k" := (bind m (fun x => k))
  (at level 100, m at next level, right associativity) : req_scope.
Notation "m ;; k" := (bind m (fun _ => k))
  (at level 100, right associativity) : req_scope.

Definition with_log (e : event) (w : world) : world :=
  {| TurnusUsers := TurnusUsers w; next_id := next_id w;
     next_conn := next_conn w; connections := connections w;
     log := e :: log w; ticks := ticks w; faults := faults w |}.

Definition with_tick (w : world) : world :=
  {| TurnusUsers := TurnusUsers w; next_id := next_id w;
     next_conn := next_conn w; connections := connections w;
     log := log w; ticks := S (ticks w); faults := faults w |}.

Definition emit (e : event) : M unit := fun w => (Ret tt, with_log e w).

(** Whether the fault plan [fl] makes round trip number [t] fail. *)
Definition faulty_at (t : nat) (fl : list nat) : bool :=
  existsb (Nat.eqb t) fl.
Arguments faulty_at : simpl never.

(** One round trip to the server: it raises when the fault plan says so,
    and counts as a tick either way. *)
Definition round_trip : M unit :=
  fun w => if faulty_at (ticks w) (faults w)
           then (Raise DatabaseError, with_tick w)
           else (Ret tt, with_tick w).

(** A cursor: the connection it was made from and the rows of its last
    result set that were not fetched yet. *)
Record cursor := {
  cursor_conn : nat;
  result_set : list user_row
}.

(** [get_db_connection()] of db_1.py: [mysql.connector.connect]. *)
Definition get_db_connection : M nat :=
  (round_trip ;;
   fun w =>
     let h := next_conn w in
     (Ret h,
      with_log (EvConnect h)
        {| TurnusUsers := TurnusUsers w; next_id := next_id w;
           next_conn := S h; connections := <[h := []]> (connections w);
           log := log w; ticks := ticks w; faults := faults w |}))%req.

(** [conn.cursor()]. *)
Definition conn_cursor (conn : nat) : M cursor :=
  ret {| cursor_conn := conn; result_set := [] |}.

(** [conn.close()]: the uncommitted rows of the connection are dropped. *)
Definition conn_close (conn : nat) : M unit :=
  fun w =>
    (Ret tt,
     with_log (EvClose conn)
       {| TurnusUsers := TurnusUsers w; next_id := next_id w;
          next_conn := next_conn w; connections := delete conn (connections w);
          log := log w; ticks := ticks w; faults := faults w |}).

(** [conn.commit()]. *)
Definition conn_commit (conn : nat) : M unit :=
  (round_trip ;;
   fun w =>
     match connections w !! conn with
     | None => (Raise DatabaseError, w)
     | Some pending =>
       (Ret tt,
        with_log (EvCommit conn)
          {| TurnusUsers := TurnusUsers w ++ pending; next_id := next_id w;
             next_conn := next_conn w;
             connections := <[conn := []]> (connections w);
             log := log w; ticks := ticks w; faults := faults w |})
     end)%req.

(** [cursor.close()]. *)
Definition cursor_close (c : cursor) : M unit := ret tt.

(** [cursor.fetchone()]: the next row of the result set, [None] at its end. *)
Definition fetchone (c : cursor) : M (option user_row * cursor) :=
  match result_set c with
  | [] => ret (None, c)
  | r :: rest =>
    ret (Some r, {| cursor_conn := cursor_conn c; result_set := rest |})
  end.

(** ** Tokens *)

(** The payload of a token, as far as this program writes and reads it:
    the [user_id] and [exp] entries of the JSON object. *)
Record claims := {
  user_id : option Z;
  exp : option Z
}.

(** The exceptions of [jwt.decode].  All of them derive from
    [InvalidTokenError]; the guard names [ExpiredSignatureError] first. *)
Inductive jwt_exn :=
| DecodeError
| InvalidAlgorithmError
| InvalidSignatureError
| ExpiredSignatureError.

Definition dot : ascii := "."%char.

Fixpoint has_dot (s : string) : bool :=
  match s with
  | EmptyString => false
  | String c s' => Ascii.eqb c dot || has_dot s'
  end.

(** [s.split(b".", 1)] when it yields two parts: cut at the first dot. *)
Fixpoint split_dot (s : string) : option (string * string) :=
  match s with
  | EmptyString => None
  | String c s' =>
    if Ascii.eqb c dot then Some (EmptyString, s')
    else match split_dot s' with
         | Some (a, b) => Some (String c a, b)
         | None => None
         end
  end.

(** [s.rsplit(b".", 1)] when it yields two parts: cut at the last dot. *)
Fixpoint rsplit_dot (s : string) : option (string * string) :=
  match s with
  | EmptyString => None
  | String c s' =>
    match rsplit_dot s' with
    | Some (a, b) => Some (String c a, b)
    | None => if Ascii.eqb c dot then Some (EmptyString, s') else None
    end
  end.

(** The last whole second a [datetime] can hold, 9999-12-31 23:59:59, in
    seconds since the epoch: adding a [timedelta] that leads past it raises
    [OverflowError]. *)
Definition datetime_max : Z := 253402300799.

(** Modelled from the spec: config.py is not among the sources; the spec
    fixes the signing algorithm as HMAC-SHA-256, whose name in a token
    header is HS256. *)
Definition JWT_ALGORITHM : string := "HS256".

(** What [jwt.decode] returns or raises. *)
Inductive jwt_result :=
| Decoded (payload : claims)
| JwtRaise (e : jwt_exn).

(** The outcome of a validation as the [try] of the guard tells the cases
    apart: no exception, the first [except] clause, the second one. *)
Inductive validation :=
| Valid (data : claims)
| Expired
| Invalid.

(** [request.form[k]]: a missing field is a [BadRequestKeyError]. *)
Definition form_get (request : Request) (k : string) : M string :=
  match dict_get (form request) k with
  | Some v => ret v
  | None => raise (BadRequestKeyError k)
  end.

(** [request.user_id = uid]. *)
Definition set_request_user_id (request : Request) (uid : Z) : Request :=
  {| method := method request; form := form request;
     cookies := cookies request; request_user_id := Some uid |}.

(** ** The scheduling pages: employee_routes.py, shift_routes.py and
    api/rotations.py

    The second application (app.py) serves the employee and shift pages.
    Its views share one connection [db] and one cursor [cursor], made when
    module [db] is imported; that module is not among the sources, so the
    two objects are modelled as what mysql.connector gives: a cursor that
    holds the result of its last statement, and a connection whose only use
    here is [commit].  A column holds the parameter the statement was
    given; the [Id] of a new row is given out by the table. *)

Module Employee.
Record row := {
  Id : Z;
  Name : string;
  PositionPercent : string
}.
End Employee.

Module Shift.
Record row := {
  Id : Z;
  Name : string;
  StartTime : string;
  EndTime : string;
  Length : string
}.
End Shift.

(** A [datetime.date], as the cursor hands out a DATE column. *)
Record date := {
  year : Z;
  month : Z;
  day : Z
}.

Record rotation := {
  rotation_date : date;
  Employee_FK_Id : Z;
  Shift_FK_Id : Z
}.

Inductive sql :=
| INSERT_employees (Name PositionPercent : string)
| SELECT_employees
| SELECT_employees_by_id (id : Z)
| UPDATE_employees (Name PositionPercent : string) (Id : Z)
| INSERT_shifts (Name StartTime EndTime Length : string)
| SELECT_shifts
| SELECT_shifts_by_id (id : Z)
| UPDATE_shifts (Name StartTime EndTime Length : string) (Id : Z)
| SELECT_rotations.

(** What goes over the shared connection. *)
Inductive wire :=
| statement_sent (q : sql)
| commit_sent.

Inductive sql_row :=
| employee_row (r : Employee.row)
| shift_row (r : Shift.row)
| rotation_row (date : date) (employee_name shift_name : string).

(** The two tables, the rows the shared cursor has not handed out yet, and
    what was sent over the shared connection, newest first. *)
Record tables := {
  employees : list Employee.row;
  employees_next_Id : Z;
  shifts : list Shift.row;
  shifts_next_Id : Z;
  rotations : list rotation;
  cursor_rows : list sql_row;
  sent : list wire
}.

Definition Pages (A : Type) : Type := tables -> outcome A * tables.

Definition pages_ret {A} (a : A) : Pages A := fun t => (Ret a, t).
Definition pages_raise {A} (e : exn) : Pages A := fun t => (Raise e, t).
Definition pages_bind {A B} (m : Pages A) (k : A -> Pages B) : Pages B :=
  fun t => match m t with
           | (Ret a, t') => k a t'
           | (Raise e, t') => (Raise e, t')
           end.

Declare Scope pages_scope.
Delimit Scope pages_scope with pages.
Notation "x <- m ;; k" := (pages_bind m (fun x => k))
  (at level 100, m at next level, right associativity) : pages_scope.
Notation "m ;; k" := (pages_bind m (fun _ => k))
  (at level 100, right associativity) : pages_scope.

(** [UPDATE ... WHERE Id = %s] on the rows of a table. *)
Definition update_employees (Name PositionPercent : string) (Id : Z)
  (rows : list Employee.row) : list Employee.row :=
  map (fun r => if Z.eqb (Employee.Id r) Id
                then {| Employee.Id := Employee.Id r;
                        Employee.Name := Name;
                        Employee.PositionPercent := PositionPercent |}
                else r) rows.

Definition update_shifts (Name StartTime EndTime Length : string) (Id : Z)
  (rows : list Shift.row) : list Shift.row :=
  map (fun r => if Z.eqb (Shift.Id r) Id
                then {| Shift.Id := Shift.Id r; Shift.Name := Name;
                        Shift.StartTime := StartTime;
                        Shift.EndTime := EndTime; Shift.Length := Length |}
                else r) rows.

(** The rows of [rotations r JOIN employees e ON r.Employee_FK_Id = e.id
    JOIN shifts s ON r.Shift_FK_Id = s.id]: one for every rotation, employee
    and shift whose keys meet. *)
Definition join_rotations (rs : list rotation) (es : list Employee.row)
  (ss : list Shift.row) : list sql_row :=
  flat_map
    (fun r =>
       flat_map
         (fun e =>
            if Z.eqb (Employee_FK_Id r) (Employee.Id e)
            then flat_map
                   (fun s =>
                      if Z.eqb (Shift_FK_Id r) (Shift.Id s)
                      then [rotation_row (rotation_date r) (Employee.Name e)
                                         (Shift.Name s)]
                      else [])
                   ss
            else [])
         es)
    rs.

(** [cursor.execute(q, params)] on the shared cursor: the statement acts on
    its table and its result replaces what the cursor held.  This is a
    buffered cursor; db.py is not among the sources, and a cursor that is
    not buffered refuses a statement while rows of the last one are
    unread. *)
Definition cursor_execute (q : sql) : Pages unit :=
  fun t =>
    let sent' := statement_sent q :: sent t in
    match q with
    | INSERT_employees Name PositionPercent =>
      (Ret tt,
       {| employees :=
            employees t ++ [{| Employee.Id := employees_next_Id t;
                               Employee.Name := Name;
                               Employee.PositionPercent := PositionPercent |}];
          employees_next_Id := employees_next_Id t + 1;
          shifts := shifts t; shifts_next_Id := shifts_next_Id t;
          rotations := rotations t;
          cursor_rows := []; sent := sent' |})
    | SELECT_employees =>
      (Ret tt,
       {| employees := employees t; employees_next_Id := employees_next_Id t;
          shifts := shifts t; shifts_next_Id := shifts_next_Id t;
          rotations := rotations t;
          cursor_rows := map employee_row (employees t); sent := sent' |})
    | SELECT_employees_by_id id =>
      (Ret tt,
       {| employees := employees t; employees_next_Id := employees_next_Id t;
          shifts := shifts t; shifts_next_Id := shifts_next_Id t;
          rotations := rotations t;
          cursor_rows :=
            map employee_row
                (List.filter (fun r => Z.eqb (Employee.Id r) id) (employees t));
          sent := sent' |})
    | UPDATE_employees Name PositionPercent Id =>
      (Ret tt,
       {| employees := update_employees Name PositionPercent Id (employees t);
          employees_next_Id := employees_next_Id t;
          shifts := shifts t; shifts_next_Id := shifts_next_Id t;
          rotations := rotations t;
          cursor_rows := []; sent := sent' |})
    | INSERT_shifts Name StartTime EndTime Length =>
      (Ret tt,
       {| employees := employees t; employees_next_Id := employees_next_Id t;
          shifts :=
            shifts t ++ [{| Shift.Id := shifts_next_Id t; Shift.Name := Name;
                            Shift.StartTime := StartTime;
                            Shift.EndTime := EndTime;
                            Shift.Length := Length |}];
          shifts_next_Id := shifts_next_Id t + 1;
          rotations := rotations t;
          cursor_rows := []; sent := sent' |})
    | SELECT_shifts =>
      (Ret tt,
       {| employees := employees t; employees_next_Id := employees_next_Id t;
          shifts := shifts t; shifts_next_Id := shifts_next_Id t;
          rotations := rotations t;
          cursor_rows := map shift_row (shifts t); sent := sent' |})
    | SELECT_shifts_by_id id =>
      (Ret tt,
       {| employees := employees t; employees_next_Id := employees_next_Id t;
          shifts := shifts t; shifts_next_Id := shifts_next_Id t;
          rotations := rotations t;
          cursor_rows :=
            map shift_row
                (List.filter (fun r => Z.eqb (Shift.Id r) id) (shifts t));
          sent := sent' |})
    | UPDATE_shifts Name StartTime EndTime Length Id =>
      (Ret tt,
       {| employees := employees t; employees_next_Id := employees_next_Id t;
          shifts := update_shifts Name StartTime EndTime Length Id (shifts t);
          shifts_next_Id := shifts_next_Id t;
          rotations := rotations t;
          cursor_rows := []; sent := sent' |})
    | SELECT_rotations =>
      (Ret tt,
       {| employees := employees t; employees_next_Id := employees_next_Id t;
          shifts := shifts t; shifts_next_Id := shifts_next_Id t;
          rotations := rotations t;
          cursor_rows := join_rotations (rotations t) (employees t) (shifts t);
          sent := sent' |})
    end.

Definition with_cursor_rows (rows : list sql_row) (t : tables) : tables :=
  {| employees := employees t; employees_next_Id := employees_next_Id t;
     shifts := shifts t; shifts_next_Id := shifts_next_Id t;
          rotations := rotations t;
     cursor_rows := rows; sent := sent t |}.

(** [cursor.fetchall()]: every row the cursor still holds. *)
Definition cursor_fetchall : Pages (list sql_row) :=
  fun t => (Ret (cursor_rows t), with_cursor_rows [] t).

(** [cursor.fetchone()]: the next row the cursor holds, [None] at the end. *)
Definition cursor_fetchone : Pages (option sql_row) :=
  fun t => match cursor_rows t with
           | [] => (Ret None, t)
           | r :: rest => (Ret (Some r), with_cursor_rows rest t)
           end.

(** [db.commit()]. *)
Definition db_commit : Pages unit :=
  fun t =>
    (Ret tt,
     {| employees := employees t; employees_next_Id := employees_next_Id t;
        shifts := shifts t; shifts_next_Id := shifts_next_Id t;
          rotations := rotations t;
        cursor_rows := cursor_rows t; sent := commit_sent :: sent t |}).

(** What a view of the scheduling pages returns: a template with the value
    of its one keyword argument, or a redirect to a path. *)
Inductive template_argument :=
| no_argument
| rows_argument (rows : list sql_row)
| row_argument (row : option sql_row).

(** An entry of the list [get_rotations] returns. *)
Record calendar_event := {
  title : string;
  start : string
}.

Inductive page :=
| rendered (template : string) (argument : template_argument)
| redirected (target : string)
| json_list (events : list calendar_event).

Definition pages_form_get (request : Request) (k : string) : Pages string :=
  match dict_get (form request) k with
  | Some v => pages_ret v
  | None => pages_raise (BadRequestKeyError k)
  end.

(** The first of the form fields [fields], in their order, that a form
    lacks. *)
Fixpoint first_missing (fields : list string) (f : list (string * string))
  : option string :=
  match fields with
  | [] => None
  | k :: rest =>
    match dict_get f k with
    | None => Some k
    | Some _ => first_missing rest f
    end
  end.

(** *** employee_routes.py *)

Definition employee_form : Pages page :=
  pages_ret (rendered "createEmployee.html" no_argument).

Definition createEmployee (request : Request) : Pages page :=
  (Name <- pages_form_get request "Name" ;;
   PositionPercent <- pages_form_get request "PositionPercent" ;;
   cursor_execute (INSERT_employees Name PositionPercent) ;;
   db_commit ;;
   pages_ret (redirected "/"))%pages.

Definition viewEmployees : Pages page :=
  (cursor_execute SELECT_employees ;;
   employees <- cursor_fetchall ;;
   pages_ret (rendered "viewEmployees.html" (rows_argument employees)))%pages.

Definition editEmployee (id : Z) : Pages page :=
  (cursor_execute (SELECT_employees_by_id id) ;;
   employee <- cursor_fetchone ;;
   pages_ret (rendered "editEmployee.html" (row_argument employee)))%pages.

Definition updateEmployee (Id : Z) (request : Request) : Pages page :=
  (Name <- pages_form_get request "Name" ;;
   PositionPercent <- pages_form_get request "PositionPercent" ;;
   cursor_execute (UPDATE_employees Name PositionPercent Id) ;;
   db_commit ;;
   pages_ret (redirected "/viewEmployees"))%pages.

(** *** shift_routes.py *)

Definition createShiftPage : Pages page :=
  pages_ret (rendered "createShift.html" no_argument).

Definition createShift (request : Request) : Pages page :=
  (Name <- pages_form_get request "Name" ;;
   StartTime <- pages_form_get request "StartTime" ;;
   EndTime <- pages_form_get request "EndTime" ;;
   Length <- pages_form_get request "Length" ;;
   cursor_execute (INSERT_shifts Name StartTime EndTime Length) ;;
   db_commit ;;
   pages_ret (redirected "/viewShifts"))%pages.

Definition viewShifts : Pages page :=
  (cursor_execute SELECT_shifts ;;
   shifts <- cursor_fetchall ;;
   pages_ret (rendered "viewShifts.html" (rows_argument shifts)))%pages.

Definition editShifts (id : Z) : Pages page :=
  (cursor_execute (SELECT_shifts_by_id id) ;;
   shift <- cursor_fetchone ;;
   pages_ret (rendered "editShifts.html" (row_argument shift)))%pages.

Definition updateShift (Id : Z) (request : Request) : Pages page :=
  (Name <- pages_form_get request "Name" ;;
   StartTime <- pages_form_get request "StartTime" ;;
   EndTime <- pages_form_get request "EndTime" ;;
   Length <- pages_form_get request "Length" ;;
   cursor_execute (UPDATE_shifts Name StartTime EndTime Length Id) ;;
   db_commit ;;
   pages_ret (redirected "/viewShifts"))%pages.

(** *** api/rotations.py *)

Section Rotations.

(** [datetime.date.isoformat]. *)
Variable isoformat : date -> string.

(** One turn of the comprehension of [get_rotations]: [row['...']] on a row
    that has no such column is a [KeyError].  The [date] column is taken to
    hold a date in every row; on a NULL the call of [isoformat] would raise
    instead. *)
Definition rotation_event (row : sql_row) : outcome calendar_event :=
  match row with
  | rotation_row d employee_name shift_name =>
    Ret {| title := employee_name +:+ " (" +:+ shift_name +:+ ")";
           start := isoformat d |}
  | _ => Raise (KeyError "employee_name")
  end.

Fixpoint rotation_events (data : list sql_row)
  : outcome (list calendar_event) :=
  match data with
  | [] => Ret []
  | row :: rest =>
    match rotation_event row with
    | Raise e => Raise e
    | Ret ev =>
      match rotation_events rest with
      | Raise e => Raise e
      | Ret evs => Ret (ev :: evs)
      end
    end
  end.

Definition get_rotations : Pages page :=
  (cursor_execute SELECT_rotations ;;
   data <- cursor_fetchall ;;
   fun t => match rotation_events data with
            | Ret events => (Ret (json_list events), t)
            | Raise e => (Raise e, t)
            end)%pages.

End Rotations.

(** ** A small executable instance of the library interfaces

    The section below is parametric in the hash functions, the MAC and the
    codecs.  This instance makes the model run on concrete requests; it
    encodes byte strings and payloads as strings of binary digits through
    the countable encodings of stdpp.  Its hash and its MAC are not
    cryptographic: they only obey the laws the proofs rely on. *)
Module Toy.

Fixpoint bits_of_pos (p : positive) : string :=
  match p with
  | xH => EmptyString
  | xO p' => String "0" (bits_of_pos p')
  | xI p' => String "1" (bits_of_pos p')
  end.

Fixpoint pos_of_bits (s : string) : option positive :=
  match s with
  | EmptyString => Some xH
  | String c s' =>
    if Ascii.eqb c "0" then option_map xO (pos_of_bits s')
    else if Ascii.eqb c "1" then option_map xI (pos_of_bits s')
    else None
  end.

Definition sql_eq : string -> string -> bool := String.eqb.

Definition generate_password_hash (password salt : string) : string :=
  password +:+ "$" +:+ salt.

Definition check_password_hash (pwhash password : string) : bool :=
  String.prefix (password +:+ "$") pwhash.

Definition SECRET_KEY : string := "cool".

Definition hmac_sha256 (key msg : string) : string := key +:+ msg.

Definition base64url_encode (s : string) : string := bits_of_pos (encode s).

Definition base64url_decode (s : string) : option string :=
  match pos_of_bits s with
  | Some p => decode p
  | None => None
  end.

Definition json_dumps_header (alg : string) : string := alg.

Definition json_loads_header (s : string) : option (option string) :=
  Some (Some s).

Definition json_dumps_claims (c : claims) : string :=
  bits_of_pos (encode (user_id c, exp c)).

Definition json_loads_claims (s : string) : option claims :=
  match pos_of_bits s with
  | Some p =>
    match decode p with
    | Some (u, e) => Some {| user_id := u; exp := e |}
    | None => None
    end
  | None => None
  end.

(** An empty store on which no round trip fails. *)
Definition empty_world : world :=
  {| TurnusUsers := []; next_id := 1; next_conn := 0; connections := ∅;
     log := []; ticks := 0; faults := [] |}.

(** The same store when the second round trip of a request fails. *)
Definition flaky_world : world :=
  {| TurnusUsers := []; next_id := 1; next_conn := 0; connections := ∅;
     log := []; ticks := 0; faults := [1%nat] |}.

(** A store that holds alice, with the hash of her password. *)
Definition alice_world : world :=
  {| TurnusUsers := [{| row_id := 1; row_username := "alice";
                        row_password := "pw1$s1" |}];
     next_id := 2; next_conn := 1; connections := ∅;
     log := []; ticks := 4; faults := [] |}.

Definition post (u p : string) : Request :=
  {| method := POST; form := [("username", u); ("password", p)];
     cookies := []; request_user_id := None |}.

Definition get_with_cookies (c : list (string * string)) : Request :=
  {| method := GET; form := []; cookies := c; request_user_id := None |}.

End Toy.

(** Sample tables and forms for the scheduling pages. *)
Module Sample.

Definition ada : Employee.row :=
  {| Employee.Id := 1; Employee.Name := "Ada";
     Employee.PositionPercent := "100" |}.

Definition bo : Employee.row :=
  {| Employee.Id := 2; Employee.Name := "Bo";
     Employee.PositionPercent := "50" |}.

Definition day_shift : Shift.row :=
  {| Shift.Id := 1; Shift.Name := "Day"; Shift.StartTime := "07:00";
     Shift.EndTime := "15:00"; Shift.Length := "8" |}.

Definition monday : date := {| year := 2025; month := 1; day := 6 |}.

Definition db : tables :=
  {| employees := [ada; bo]; employees_next_Id := 3;
     shifts := [day_shift]; shifts_next_Id := 2;
     rotations := [{| rotation_date := monday; Employee_FK_Id := 1;
                      Shift_FK_Id := 1 |};
                   {| rotation_date := monday; Employee_FK_Id := 2;
                      Shift_FK_Id := 1 |}];
     cursor_rows := []; sent := [] |}.

Definition employee_post (n pp : string) : Request :=
  {| method := POST; form := [("Name", n); ("PositionPercent", pp)];
     cookies := []; request_user_id := None |}.

Definition shift_post (n s e l : string) : Request :=
  {| method := POST;
     form := [("Name", n); ("StartTime", s); ("EndTime", e); ("Length", l)];
     cookies := []; request_user_id := None |}.

Definition empty_post : Request :=
  {| method := POST; form := []; cookies := []; request_user_id := None |}.

Definition two_digits (z : Z) : string :=
  if (z <? 10)%Z then "0" +:+ pretty z else pretty z.

Definition isoformat (d : date) : string :=
  pretty (year d) +:+ "-" +:+ two_digits (month d) +:+ "-" +:+
  two_digits (day d).

End Sample.

(** A comparison as the server's default collations make it: letters compare
    without regard to their case. *)
Module Collation.

Definition lower (c : ascii) : ascii :=
  let n := nat_of_ascii c in
  if (65 <=? n)%nat && (n <=? 90)%nat then ascii_of_nat (n + 32) else c.

Fixpoint casefold (s : string) : string :=
  match s with
  | EmptyString => EmptyString
  | String c s' => String (lower c) (casefold s')
  end.

Definition general_ci (a b : string) : bool :=
  String.eqb (casefold a) (casefold b).

End Collation.

Section App.

(** *** What the libraries provide *)

(** The comparison the server applies to [username = %s]: the collation of
    the column. *)
Variable sql_eq : string -> string -> bool.

(** werkzeug.security.  [generate_password_hash] draws a salt; it is the
    second argument here. *)
Variable generate_password_hash : string -> string -> string.
Variable check_password_hash : string -> string -> bool.

(** config.py is not among the sources: the secret is a parameter. *)
Variable SECRET_KEY : string.

(** The [jwt] package: the MAC of HS256 (key first), base64url on byte
    strings, and JSON for the header (reduced to its [alg] entry) and for
    the payload. *)
Variable hmac_sha256 : string -> string -> string.
Variable base64url_encode : string -> string.
Variable base64url_decode : string -> option string.
Variable json_dumps_header : string -> string.
Variable json_loads_header : string -> option (option string).
Variable json_dumps_claims : claims -> string.
Variable json_loads_claims : string -> option claims.

(** *** The store statements *)

(** [cursor.execute(q, params)].  A SELECT sees the committed rows and the
    rows of its own transaction, in table order; an INSERT takes the next
    [id] and stays in the transaction until [commit]. *)
Definition execute (c : cursor) (q : statement) : M cursor :=
  (round_trip ;;
   fun w =>
     let h := cursor_conn c in
     match connections w !! h with
     | None => (Raise DatabaseError, w)
     | Some pending =>
       match q with
       | SELECT_by_username u =>
         (Ret {| cursor_conn := h;
                 result_set :=
                   List.filter (fun r => sql_eq (row_username r) u)
                               (TurnusUsers w ++ pending) |},
          with_log (EvExecute h q) w)
       | INSERT_user u hashed =>
         let r := {| row_id := next_id w; row_username := u;
                     row_password := hashed |} in
         (Ret {| cursor_conn := h; result_set := [] |},
          with_log (EvExecute h q)
            {| TurnusUsers := TurnusUsers w; next_id := next_id w + 1;
               next_conn := next_conn w;
               connections := <[h := pending ++ [r]]> (connections w);
               log := log w; ticks := ticks w; faults := faults w |})
       end
     end)%req.

(** *** jwt.encode and jwt.decode *)

Definition algorithm_by_name (alg : string)
  : option (string -> string -> string) :=
  if String.eqb alg "HS256" then Some hmac_sha256 else None.

(** [jwt.encode(payload, key, algorithm)]: [None] stands for the
    [NotImplementedError] of an algorithm the package does not know. *)
Definition jwt_encode (payload : claims) (key algorithm : string)
  : option string :=
  match algorithm_by_name algorithm with
  | None => None
  | Some sign =>
    let header_segment := base64url_encode (json_dumps_header algorithm) in
    let payload_segment := base64url_encode (json_dumps_claims payload) in
    let signing_input := header_segment +:+ "." +:+ payload_segment in
    let signature := sign key signing_input in
    Some (signing_input +:+ "." +:+ base64url_encode signature)
  end.

(** [jwt.decode(token, key, algorithms=...)] at clock reading [now]: load
    the three segments, check the algorithm, verify the signature, parse the
    payload, and only then look at [exp]; a token is expired from the second
    its [exp] names.  The payload is modelled by the two entries this program
    writes; the checks the package makes on other registered entries ([nbf],
    [iat], [aud], [iss]) of a token this program did not issue are left
    out. *)
Definition jwt_decode (token key : string) (algorithms : list string)
  (now : Z) : jwt_result :=
  match rsplit_dot token with
  | None => JwtRaise DecodeError
  | Some (signing_input, crypto_segment) =>
  match split_dot signing_input with
  | None => JwtRaise DecodeError
  | Some (header_segment, payload_segment) =>
  match base64url_decode header_segment with
  | None => JwtRaise DecodeError
  | Some header_data =>
  match json_loads_header header_data with
  | None => JwtRaise DecodeError
  | Some header =>
  match base64url_decode payload_segment with
  | None => JwtRaise DecodeError
  | Some payload_data =>
  match base64url_decode crypto_segment with
  | None => JwtRaise DecodeError
  | Some signature =>
  match header with
  | None => JwtRaise InvalidAlgorithmError
  | Some alg =>
  if String.eqb alg "" || negb (existsb (String.eqb alg) algorithms)
  then JwtRaise InvalidAlgorithmError
  else
  match algorithm_by_name alg with
  | None => JwtRaise InvalidAlgorithmError
  | Some sign =>
  if negb (String.eqb signature (sign key signing_input))
  then JwtRaise InvalidSignatureError
  else
  match json_loads_claims payload_data with
  | None => JwtRaise DecodeError
  | Some payload =>
  match exp payload with
  | Some e => if (e <=? now)%Z then JwtRaise ExpiredSignatureError
              else Decoded payload
  | None => Decoded payload
  end end end end end end end end end end.

(** *** The views of app2.py *)

Definition token_required (f : Request -> M Response) (now : Z)
  (request : Request) : M Response :=
  match dict_get (cookies request) "token" with
  | None => ret (redirect (url_for ep_login))
  | Some token =>
    if String.eqb token "" then ret (redirect (url_for ep_login))
    else
      (emit (EvDecode token) ;;
       match jwt_decode token SECRET_KEY [JWT_ALGORITHM] now with
       | Decoded data =>
         match user_id data with
         | Some uid => f (set_request_user_id request uid)
         | None => raise (KeyError "user_id")
         end
       | JwtRaise ExpiredSignatureError => ret (redirect (url_for ep_login))
       | JwtRaise _ => ret (redirect (url_for ep_login))
       end)%req
  end.

Definition register (salt : string) (request : Request) : M Response :=
  match method request with
  | GET => ret (render_template "register.html" [])
  | _ =>
    (username <- form_get request "username" ;;
     password <- form_get request "password" ;;
     conn <- get_db_connection ;;
     cursor <- conn_cursor conn ;;
     cursor <- execute cursor (SELECT_by_username username) ;;
     fetched <- fetchone cursor ;;
     let cursor := snd fetched in
     match fst fetched with
     | Some _ =>
       cursor_close cursor ;;
       conn_close conn ;;
       ret (text_response "User already exists" 409)
     | None =>
       let hashed_password := generate_password_hash password salt in
       cursor <- execute cursor (INSERT_user username hashed_password) ;;
       conn_commit conn ;;
       cursor_close cursor ;;
       conn_close conn ;;
       ret (redirect (url_for ep_login))
     end)%req
  end.

Definition login (utcnow : Z) (request : Request) : M Response :=
  match method request with
  | GET => ret (render_template "login.html" [])
  | _ =>
    (username <- form_get request "username" ;;
     password <- form_get request "password" ;;
     conn <- get_db_connection ;;
     cursor <- conn_cursor conn ;;
     cursor <- execute cursor (SELECT_by_username username) ;;
     fetched <- fetchone cursor ;;
     let user := fst fetched in
     let cursor := snd fetched in
     cursor_close cursor ;;
     conn_close conn ;;
     match user with
     | None => ret (text_response "Invalid credentials" 401)
     | Some user =>
       if negb (check_password_hash (row_password user) password)
       then ret (text_response "Invalid credentials" 401)
       else if (datetime_max <? utcnow + 3600)%Z
       then raise OverflowError
       else
         match jwt_encode {| user_id := Some (row_id user);
                             exp := Some (utcnow + 3600) |}
                          SECRET_KEY JWT_ALGORITHM with
         | None => raise NotImplementedError
         | Some token =>
           ret (set_cookie (redirect (url_for ep_protected)) "token" token)
         end
     end)%req
  end.

Definition protected_view (request : Request) : M Response :=
  match request_user_id request with
  | Some uid => ret (render_template "protected.html" [("user_id", uid)])
  | None => raise (AttributeError "user_id")
  end.

Definition protected : Z -> Request -> M Response :=
  token_required protected_view.

Definition logout (request : Request) : M Response :=
  ret (delete_cookie (redirect (url_for ep_login)) "token").

(** *** The operations as the specification names them *)

(** The token [login] puts in the cookie for user [uid] at time [utcnow]. *)
Definition issue (uid utcnow : Z) : option string :=
  jwt_encode {| user_id := Some uid; exp := Some (utcnow + 3600) |}
             SECRET_KEY JWT_ALGORITHM.

(** The three ways the [try] of the guard can end. *)
Definition validate (token : string) (now : Z) : validation :=
  match jwt_decode token SECRET_KEY [JWT_ALGORITHM] now with
  | Decoded data => Valid data
  | JwtRaise ExpiredSignatureError => Expired
  | JwtRaise _ => Invalid
  end.

(** What a token carries, read without any check: the payload segment
    between the first and the last dot, decoded. *)
Definition unverified_claims (token : string) : option claims :=
  match rsplit_dot token with
  | None => None
  | Some (signing_input, _) =>
    match split_dot signing_input with
    | None => None
    | Some (_, payload_segment) =>
      match base64url_decode payload_segment with
      | None => None
      | Some payload_data => json_loads_claims payload_data
      end
    end
  end.

(** A token has the three segments of the compact serialisation, each of
    which decodes. *)
Definition well_formed (token : string) : Prop :=
  exists h p c header_data header payload_data payload signature,
    token = h +:+ "." +:+ p +:+ "." +:+ c /\
    has_dot h = false /\ has_dot c = false /\
    base64url_decode h = Some header_data /\
    json_loads_header header_data = Some header /\
    base64url_decode p = Some payload_data /\
    json_loads_claims payload_data = Some payload /\
    base64url_decode c = Some signature.

(** The last segment of a token is the MAC, under the secret of the
    process, of everything before the last dot. *)
Definition signature_verifies (token : string) : Prop :=
  exists signing_input c,
    token = signing_input +:+ "." +:+ c /\
    has_dot c = false /\
    base64url_decode c = Some (hmac_sha256 SECRET_KEY signing_input).

(** The token [jwt.encode] builds under HS256, segment by segment. *)
Definition header_segment_of : string :=
  base64url_encode (json_dumps_header JWT_ALGORITHM).
Definition payload_segment_of (payload : claims) : string :=
  base64url_encode (json_dumps_claims payload).
Definition signing_input_of (payload : claims) : string :=
  header_segment_of +:+ "." +:+ payload_segment_of payload.
Definition crypto_segment_of (key signing_input : string) : string :=
  base64url_encode (hmac_sha256 key signing_input).

(** The row [fetchone] hands back after the SELECT of a username. *)
Definition find_user (rows : list user_row) (u : string) : option user_row :=
  List.find (fun r => sql_eq (row_username r) u) rows.

(** An event that changes the table or makes a change durable. *)
Definition is_write (e : event) : bool :=
  match e with
  | EvExecute _ (INSERT_user _ _) => true
  | EvCommit _ => true
  | _ => false
  end.

(** A request that submits the form with username [u] and password [p]. *)
Definition submits (request : Request) (u p : string) : Prop :=
  method request = POST /\
  dict_get (form request) "username" = Some u /\
  dict_get (form request) "password" = Some p.

(** Between world [w] and world [w'] every connection that was opened has
    been closed again. *)
Definition connections_released (w w' : world) : Prop :=
  exists evs,
    log w' = evs ++ log w /\
    forall h, In (EvConnect h) evs ->
              In (EvClose h) evs /\ connections w' !! h = None.

(** Every open connection was handed out by [get_db_connection] before. *)
Definition handles_fresh (w : world) : Prop :=
  forall h, is_Some (connections w !! h) -> (h < next_conn w)%nat.

(** * Properties *)

(** ** Cutting a token at its dots *)

Lemma append_nil (s : string) : "" +:+ s = s.
Proof. reflexivity. Qed.

Lemma append_cons (c : ascii) (a b : string) :
  String c a +:+ b = String c (a +:+ b).
Proof. reflexivity. Qed.

Lemma append_assoc (a b c : string) : (a +:+ b) +:+ c = a +:+ (b +:+ c).
Proof.
  induction a as [|x a IH]; [reflexivity|].
  rewrite !append_cons, IH. reflexivity.
Qed.

Lemma has_dot_app a b : has_dot (a +:+ b) = has_dot a || has_dot b.
Proof.
  induction a as [|c a IH]; [reflexivity|].
  rewrite append_cons. simpl. rewrite IH. apply orb_assoc.
Qed.

Lemma split_dot_app a b :
  has_dot a = false -> split_dot (a +:+ "." +:+ b) = Some (a, b).
Proof.
  induction a as [|c a IH]; intros Ha.
  - reflexivity.
  - simpl in Ha. apply orb_false_iff in Ha as [Hc Ha].
    rewrite append_cons. simpl. rewrite Hc, (IH Ha). reflexivity.
Qed.

Lemma rsplit_dot_no_dot s : has_dot s = false -> rsplit_dot s = None.
Proof.
  induction s as [|c s IH]; simpl; intros Hs; [reflexivity|].
  apply orb_false_iff in Hs as [Hc Hs].
  rewrite (IH Hs), Hc. reflexivity.
Qed.

Lemma rsplit_dot_app a b :
  has_dot b = false -> rsplit_dot (a +:+ "." +:+ b) = Some (a, b).
Proof.
  intros Hb. induction a as [|c a IH].
  - rewrite append_nil, append_cons, append_nil. simpl.
    rewrite (rsplit_dot_no_dot _ Hb). reflexivity.
  - rewrite append_cons. simpl. rewrite IH. reflexivity.
Qed.

Lemma rsplit_dot_None s : rsplit_dot s = None -> has_dot s = false.
Proof.
  induction s as [|c s IH]; simpl; [reflexivity|].
  destruct (rsplit_dot s) as [[a b]|]; [discriminate|].
  destruct (Ascii.eqb c dot); [discriminate|]. intros _. apply IH. reflexivity.
Qed.

Lemma split_dot_Some s a b :
  split_dot s = Some (a, b) -> s = a +:+ "." +:+ b /\ has_dot a = false.
Proof.
  revert a. induction s as [|c s IH]; simpl; intros a H; [discriminate|].
  destruct (Ascii.eqb c dot) eqn:Hc.
  - apply Ascii.eqb_eq in Hc. injection H as <- <-. subst c. split; reflexivity.
  - destruct (split_dot s) as [[a' b']|]; [|discriminate].
    injection H as <- <-. destruct (IH a' eq_refl) as [-> Ha'].
    simpl. rewrite Hc. split; [reflexivity | exact Ha'].
Qed.

Lemma rsplit_dot_Some s a b :
  rsplit_dot s = Some (a, b) -> s = a +:+ "." +:+ b /\ has_dot b = false.
Proof.
  revert a. induction s as [|c s IH]; simpl; intros a H; [discriminate|].
  destruct (rsplit_dot s) as [[a' b']|] eqn:Hs.
  - injection H as <- <-. destruct (IH a' eq_refl) as [-> Hb].
    split; [reflexivity | exact Hb].
  - destruct (Ascii.eqb c dot) eqn:Hc; [|discriminate].
    apply Ascii.eqb_eq in Hc. injection H as <- <-. subst c.
    split; [reflexivity | apply rsplit_dot_None; exact Hs].
Qed.

(** ** Tokens: issuing and validating *)

(** The laws of the codecs of the [jwt] package. *)
Hypothesis base64url_roundtrip :
  forall s, base64url_decode (base64url_encode s) = Some s.
Hypothesis base64url_alphabet :
  forall s, has_dot (base64url_encode s) = false.
Hypothesis header_roundtrip :
  forall alg, json_loads_header (json_dumps_header alg) = Some (Some alg).
Hypothesis claims_roundtrip :
  forall c, json_loads_claims (json_dumps_claims c) = Some c.

Lemma jwt_encode_HS256 payload key :
  jwt_encode payload key JWT_ALGORITHM =
  Some (signing_input_of payload +:+ "." +:+
        crypto_segment_of key (signing_input_of payload)).
Proof. reflexivity. Qed.

Lemma jwt_decode_segments h p c key now :
  has_dot h = false -> has_dot c = false ->
  jwt_decode ((h +:+ "." +:+ p) +:+ "." +:+ c) key [JWT_ALGORITHM] now =
  match base64url_decode h with
  | None => JwtRaise DecodeError
  | Some header_data =>
  match json_loads_header header_data with
  | None => JwtRaise DecodeError
  | Some header =>
  match base64url_decode p with
  | None => JwtRaise DecodeError
  | Some payload_data =>
  match base64url_decode c with
  | None => JwtRaise DecodeError
  | Some signature =>
  match header with
  | None => JwtRaise InvalidAlgorithmError
  | Some alg =>
  if negb (String.eqb alg JWT_ALGORITHM) then JwtRaise InvalidAlgorithmError
  else if negb (String.eqb signature
                  (hmac_sha256 key (h +:+ "." +:+ p)))
  then JwtRaise InvalidSignatureError
  else
  match json_loads_claims payload_data with
  | None => JwtRaise DecodeError
  | Some payload =>
  match exp payload with
  | Some e => if (e <=? now)%Z then JwtRaise ExpiredSignatureError
              else Decoded payload
  | None => Decoded payload
  end end end end end end end.
Proof.
  intros Hh Hc. unfold jwt_decode.
  rewrite (rsplit_dot_app _ _ Hc), (split_dot_app _ _ Hh).
  destruct (base64url_decode h) as [header_data|]; [|reflexivity].
  destruct (json_loads_header header_data) as [header|]; [|reflexivity].
  destruct (base64url_decode p) as [payload_data|]; [|reflexivity].
  destruct (base64url_decode c) as [signature|]; [|reflexivity].
  destruct header as [alg|]; [|reflexivity].
  unfold algorithm_by_name, JWT_ALGORITHM. simpl existsb.
  rewrite orb_false_r.
  destruct (String.eqb alg "HS256") eqn:Halg.
  - apply String.eqb_eq in Halg. subst alg. reflexivity.
  - simpl. rewrite orb_true_r. reflexivity.
Qed.

Lemma jwt_decode_encode payload key now :
  exists token,
    jwt_encode payload key JWT_ALGORITHM = Some token /\
    unverified_claims token = Some payload /\
    jwt_decode token key [JWT_ALGORITHM] now =
    match exp payload with
    | Some e => if (e <=? now)%Z then JwtRaise ExpiredSignatureError
                else Decoded payload
    | None => Decoded payload
    end.
Proof.
  eexists. split; [apply jwt_encode_HS256|]. split.
  - unfold unverified_claims, signing_input_of, crypto_segment_of,
      header_segment_of, payload_segment_of.
    rewrite rsplit_dot_app by apply base64url_alphabet.
    rewrite split_dot_app by apply base64url_alphabet.
    rewrite base64url_roundtrip. apply claims_roundtrip.
  - unfold signing_input_of. rewrite jwt_decode_segments
      by (unfold header_segment_of, crypto_segment_of;
          apply base64url_alphabet).
    unfold header_segment_of, payload_segment_of, crypto_segment_of.
    rewrite !base64url_roundtrip, header_roundtrip, claims_roundtrip.
    rewrite !String.eqb_refl. reflexivity.
Qed.

(** What [jwt.decode] has checked when it does not end in one of the
    errors the guard files under [InvalidTokenError] alone. *)
Lemma jwt_decode_checked token now :
  validate token now <> Invalid ->
  well_formed token /\ signature_verifies token.
Proof.
  unfold validate, jwt_decode. intros H.
  destruct (rsplit_dot token) as [[signing_input c]|] eqn:Hr;
    [|exfalso; apply H; reflexivity].
  destruct (split_dot signing_input) as [[h p]|] eqn:Hs;
    [|exfalso; apply H; reflexivity].
  destruct (base64url_decode h) as [header_data|] eqn:Hh;
    [|exfalso; apply H; reflexivity].
  destruct (json_loads_header header_data) as [header|] eqn:Hj;
    [|exfalso; apply H; reflexivity].
  destruct (base64url_decode p) as [payload_data|] eqn:Hp;
    [|exfalso; apply H; reflexivity].
  destruct (base64url_decode c) as [signature|] eqn:Hc;
    [|exfalso; apply H; reflexivity].
  destruct header as [alg|]; [|exfalso; apply H; reflexivity].
  destruct (String.eqb alg "" || negb (existsb (String.eqb alg) [JWT_ALGORITHM]));
    [exfalso; apply H; reflexivity|].
  unfold algorithm_by_name in H.
  destruct (String.eqb alg "HS256"); [|exfalso; apply H; reflexivity].
  destruct (String.eqb signature (hmac_sha256 SECRET_KEY signing_input)) eqn:Hm;
    [|exfalso; apply H; reflexivity].
  simpl in H.
  destruct (json_loads_claims payload_data) as [payload|] eqn:Hl;
    [|exfalso; apply H; reflexivity].
  apply String.eqb_eq in Hm. subst signature.
  apply rsplit_dot_Some in Hr as [-> Hdc].
  apply split_dot_Some in Hs as [-> Hdh].
  split.
  - exists h, p, c, header_data, (Some alg), payload_data, payload,
      (hmac_sha256 SECRET_KEY (h +:+ "." +:+ p)).
    rewrite append_assoc. repeat split; assumption.
  - exists (h +:+ "." +:+ p), c. repeat split; assumption.
Qed.

Lemma validate_encode payload now :
  exists token,
    jwt_encode payload SECRET_KEY JWT_ALGORITHM = Some token /\
    unverified_claims token = Some payload /\
    validate token now =
    match exp payload with
    | Some e => if (e <=? now)%Z then Expired else Valid payload
    | None => Valid payload
    end.
Proof.
  destruct (jwt_decode_encode payload SECRET_KEY now) as (token & He & Hu & Hd).
  exists token. split; [exact He|]. split; [exact Hu|].
  unfold validate. rewrite Hd.
  destruct (exp payload) as [e|]; [|reflexivity].
  destruct (e <=? now)%Z; reflexivity.
Qed.

Lemma signing_input_signed payload :
  signature_verifies
    (signing_input_of payload +:+ "." +:+
     crypto_segment_of SECRET_KEY (signing_input_of payload)).
Proof.
  exists (signing_input_of payload),
    (crypto_segment_of SECRET_KEY (signing_input_of payload)).
  unfold crypto_segment_of. split; [reflexivity|]. split.
  - apply base64url_alphabet.
  - apply base64url_roundtrip.
Qed.

Lemma signing_input_well_formed payload :
  well_formed
    (signing_input_of payload +:+ "." +:+
     crypto_segment_of SECRET_KEY (signing_input_of payload)).
Proof.
  exists header_segment_of, (payload_segment_of payload),
    (crypto_segment_of SECRET_KEY (signing_input_of payload)),
    (json_dumps_header JWT_ALGORITHM), (Some JWT_ALGORITHM),
    (json_dumps_claims payload), payload,
    (hmac_sha256 SECRET_KEY (signing_input_of payload)).
  unfold signing_input_of, header_segment_of, payload_segment_of,
    crypto_segment_of.
  rewrite append_assoc.
  repeat split;
    auto using base64url_alphabet, base64url_roundtrip, header_roundtrip,
      claims_roundtrip.
Qed.

(** A token has one cut at its last dot. *)
Lemma last_dot_unique a b a' b' :
  has_dot b = false -> has_dot b' = false ->
  a +:+ "." +:+ b = a' +:+ "." +:+ b' -> a = a' /\ b = b'.
Proof.
  intros Hb Hb' E.
  pose proof (rsplit_dot_app a b Hb) as H1.
  rewrite E, (rsplit_dot_app a' b' Hb') in H1.
  injection H1 as -> ->. split; reflexivity.
Qed.

Lemma issue_validate (uid utcnow now : Z) :
  now < utcnow + 3600 ->
  exists token data,
    issue uid utcnow = Some token /\
    validate token now = Valid data /\
    user_id data = Some uid.
Proof.
  intros Hnow. unfold issue.
  destruct (validate_encode
              {| user_id := Some uid; exp := Some (utcnow + 3600) |} now)
    as (token & He & _ & Hv).
  exists token, {| user_id := Some uid; exp := Some (utcnow + 3600) |}.
  split; [exact He|]. split; [|reflexivity].
  rewrite Hv. simpl.
  destruct (Z.leb_spec (utcnow + 3600) now) as [Hle|_]; [lia | reflexivity].
Qed.

(** C2: a token issued for [uid] at [utcnow] is accepted by [validate] at
    every clock reading before its expiry, and the payload handed back
    carries [uid] as its [user_id]. *)
Theorem issued_token_validates (uid utcnow now : Z) :
  now < utcnow + 3600 ->
  exists token data,
    issue uid utcnow = Some token /\
    validate token now = Valid data /\
    user_id data = Some uid.
Proof. apply issue_validate. Qed.

(** C3: the expiry a token carries is its issuance time plus 3600 seconds;
    the token is correctly signed; and at every clock reading at or after
    that expiry [validate] ends in [Expired]. *)
Theorem issued_token_expires (uid utcnow : Z) :
  exists token data,
    issue uid utcnow = Some token /\
    unverified_claims token = Some data /\
    exp data = Some (utcnow + 3600) /\
    signature_verifies token /\
    forall now, utcnow + 3600 <= now -> validate token now = Expired.
Proof.
  unfold issue.
  set (payload := {| user_id := Some uid; exp := Some (utcnow + 3600) |}).
  exists (signing_input_of payload +:+ "." +:+
          crypto_segment_of SECRET_KEY (signing_input_of payload)), payload.
  split; [apply jwt_encode_HS256|].
  split.
  { destruct (validate_encode payload 0) as (token & He & Hu & _).
    rewrite jwt_encode_HS256 in He. injection He as <-. exact Hu. }
  split; [reflexivity|].
  split; [apply signing_input_signed|].
  intros now Hnow.
  destruct (validate_encode payload now) as (token & He & _ & Hv).
  rewrite jwt_encode_HS256 in He. injection He as <-.
  rewrite Hv. simpl.
  destruct (Z.leb_spec (utcnow + 3600) now) as [_|Hlt]; [reflexivity | lia].
Qed.

(** C4: a token that is malformed, or whose signature does not verify under
    the secret, ends [validate] in [Invalid]; so does an issued token whose
    signature bytes were replaced, and one whose payload was replaced by a
    payload with a different MAC. *)
Theorem forged_token_invalid :
  (forall token now,
      ~ well_formed token \/ ~ signature_verifies token ->
      validate token now = Invalid) /\
  (forall payload signature now,
      signature <> hmac_sha256 SECRET_KEY (signing_input_of payload) ->
      validate (signing_input_of payload +:+ "." +:+
                base64url_encode signature) now = Invalid) /\
  (forall payload payload' now,
      hmac_sha256 SECRET_KEY (signing_input_of payload') <>
      hmac_sha256 SECRET_KEY (signing_input_of payload) ->
      validate (signing_input_of payload' +:+ "." +:+
                crypto_segment_of SECRET_KEY (signing_input_of payload)) now
      = Invalid).
Proof.
  assert (general : forall token now,
             ~ well_formed token \/ ~ signature_verifies token ->
             validate token now = Invalid).
  { intros token now H.
    destruct (validate token now) as [data| |] eqn:Hv; [| |reflexivity];
      exfalso;
      (assert (Hne : validate token now <> Invalid) by (rewrite Hv; discriminate));
      destruct (jwt_decode_checked token now Hne) as [Hwf Hsv];
      destruct H as [H|H]; apply H; assumption. }
  split; [exact general|]. split.
  - intros payload signature now Hsig. apply general. right.
    intros (si & c & E & Hc & Hd).
    apply last_dot_unique in E as [<- <-];
      [|apply base64url_alphabet | exact Hc].
    rewrite base64url_roundtrip in Hd. injection Hd as Hd. contradiction.
  - intros payload payload' now Hmac. apply general. right.
    intros (si & c & E & Hc & Hd).
    apply last_dot_unique in E as [<- <-];
      [|apply base64url_alphabet | exact Hc].
    unfold crypto_segment_of in Hd.
    rewrite base64url_roundtrip in Hd. injection Hd as Hd.
    apply Hmac. symmetry. exact Hd.
Qed.

(** ** The guard *)

Lemma validate_empty now : validate "" now = Invalid.
Proof. reflexivity. Qed.

(** The guard, by the cookie and by what [validate] says of it. *)
Lemma token_required_run f now request w :
  token_required f now request w =
  match dict_get (cookies request) "token" with
  | None => (Ret (redirect (url_for ep_login)), w)
  | Some token =>
    if String.eqb token "" then (Ret (redirect (url_for ep_login)), w)
    else
      match validate token now with
      | Valid data =>
        match user_id data with
        | Some uid =>
          f (set_request_user_id request uid) (with_log (EvDecode token) w)
        | None => (Raise (KeyError "user_id"), with_log (EvDecode token) w)
        end
      | Expired | Invalid =>
        (Ret (redirect (url_for ep_login)), with_log (EvDecode token) w)
      end
  end.
Proof.
  unfold token_required, validate.
  destruct (dict_get (cookies request) "token") as [token|]; [|reflexivity].
  destruct (String.eqb token ""); [reflexivity|].
  unfold bind, emit.
  destruct (jwt_decode token SECRET_KEY [JWT_ALGORITHM] now) as [data|e].
  - destruct (user_id data); reflexivity.
  - destruct e; reflexivity.
Qed.

(** C5: without a [token] cookie the guard redirects to the login page and
    leaves the world, its log of [jwt.decode] calls included, as it was; a
    cookie that [validate] finds expired and one it finds invalid get the
    same redirect, status 302 to /login; a cookie that validates has the
    wrapped view called on a request that is the incoming one with its
    [user_id] attribute set to the decoded [user_id]; and in every other
    case the outcome does not depend on the wrapped view. *)
Theorem guard_behaviour :
  (forall f now request w,
      dict_get (cookies request) "token" = None ->
      token_required f now request w =
      (Ret (redirect (url_for ep_login)), w)) /\
  (forall f f' now now' request request' w w' token token',
      dict_get (cookies request) "token" = Some token ->
      dict_get (cookies request') "token" = Some token' ->
      validate token now = Expired ->
      validate token' now' = Invalid ->
      fst (token_required f now request w) =
        Ret (redirect (url_for ep_login)) /\
      fst (token_required f' now' request' w') =
        Ret (redirect (url_for ep_login))) /\
  (status (redirect (url_for ep_login)) = 302 /\
   location (redirect (url_for ep_login)) = Some "/login" /\
   set_cookies (redirect (url_for ep_login)) = []) /\
  (forall f now request w token data uid,
      dict_get (cookies request) "token" = Some token ->
      validate token now = Valid data ->
      user_id data = Some uid ->
      exists request',
        token_required f now request w =
          f request' (with_log (EvDecode token) w) /\
        request' = set_request_user_id request uid /\
        request_user_id request' = Some uid /\
        method request' = method request /\
        form request' = form request /\
        cookies request' = cookies request) /\
  (forall f now request w,
      ~ (exists token data,
            dict_get (cookies request) "token" = Some token /\
            validate token now = Valid data) ->
      forall g, token_required g now request w = token_required f now request w).
Proof.
  split; [|split; [|split; [|split]]].
  - intros f now request w Hc. rewrite token_required_run, Hc. reflexivity.
  - intros f f' now now' request request' w w' token token' Hc Hc' Hv Hv'.
    rewrite !token_required_run, Hc, Hc', Hv, Hv'.
    destruct (String.eqb token ""), (String.eqb token' "");
      split; reflexivity.
  - repeat split; reflexivity.
  - intros f now request w token data uid Hc Hv Hu.
    exists (set_request_user_id request uid).
    split; [|repeat split; reflexivity].
    rewrite token_required_run, Hc.
    destruct (String.eqb token "") eqn:He.
    + apply String.eqb_eq in He. subst token.
      rewrite validate_empty in Hv. discriminate.
    + rewrite Hv, Hu. reflexivity.
  - intros f now request w Hno g. rewrite !token_required_run.
    destruct (dict_get (cookies request) "token") as [token|]; [|reflexivity].
    destruct (String.eqb token ""); [reflexivity|].
    destruct (validate token now) as [data| |] eqn:Hv; try reflexivity.
    exfalso. apply Hno. exists token, data. split; [reflexivity | exact Hv].
Qed.

(** ** The store *)

Lemma faulty_at_nil t : faulty_at t [] = false.
Proof. reflexivity. Qed.

Lemma fetch_first (f : user_row -> bool) (rows : list user_row) :
  match List.filter f rows with [] => None | r :: _ => Some r end
  = List.find f rows.
Proof.
  induction rows as [|r rows IH]; simpl; [reflexivity|].
  destruct (f r); [reflexivity | exact IH].
Qed.

Lemma find_user_filter rows u :
  find_user rows u =
  match List.filter (fun r => sql_eq (row_username r) u) rows with
  | [] => None
  | r :: _ => Some r
  end.
Proof. symmetry. apply fetch_first. Qed.

(** Running a view: unfold the statements, then follow every branch the
    fault plan and the result set can take. *)
Ltac unfold_statements :=
  unfold get_db_connection, execute, conn_commit, conn_close, cursor_close,
    conn_cursor, fetchone, form_get, bind, round_trip, ret, raise.

Ltac follow_run :=
  repeat (simpl;
          match goal with
          | |- context [faulty_at _ []] => rewrite faulty_at_nil
          | |- context [faulty_at ?t ?fl] => destruct (faulty_at t fl) eqn:?
          | |- context [<[?h:=?x]> ?m !! ?h] =>
            rewrite (lookup_insert_eq m h x)
          | |- context [List.filter ?f (?l ++ [])] => rewrite (app_nil_r l)
          | |- context [match List.filter ?f ?l with _ => _ end] =>
            destruct (List.filter f l) eqn:?
          end);
  simpl.

Lemma register_run_healthy salt request rows nid nc conns lg tk u p :
  submits request u p ->
  register salt request
    {| TurnusUsers := rows; next_id := nid; next_conn := nc;
       connections := conns; log := lg; ticks := tk; faults := [] |} =
  match find_user rows u with
  | Some _ =>
    (Ret (text_response "User already exists" 409),
     {| TurnusUsers := rows; next_id := nid; next_conn := S nc;
        connections := delete nc (<[nc := []]> conns);
        log := EvClose nc :: EvExecute nc (SELECT_by_username u)
               :: EvConnect nc :: lg;
        ticks := S (S tk); faults := [] |})
  | None =>
    let hashed := generate_password_hash p salt in
    let new := {| row_id := nid; row_username := u; row_password := hashed |} in
    (Ret (redirect (url_for ep_login)),
     {| TurnusUsers := rows ++ [new]; next_id := nid + 1; next_conn := S nc;
        connections :=
          delete nc (<[nc := []]> (<[nc := [new]]> (<[nc := []]> conns)));
        log := EvClose nc :: EvCommit nc :: EvExecute nc (INSERT_user u hashed)
               :: EvExecute nc (SELECT_by_username u) :: EvConnect nc :: lg;
        ticks := S (S (S (S tk))); faults := [] |})
  end.
Proof.
  intros (Hm & Hu & Hp). rewrite find_user_filter.
  unfold register. rewrite Hm. unfold_statements. rewrite Hu, Hp.
  follow_run; reflexivity.
Qed.

Lemma login_run_healthy utcnow request rows nid nc conns lg tk u p :
  submits request u p ->
  login utcnow request
    {| TurnusUsers := rows; next_id := nid; next_conn := nc;
       connections := conns; log := lg; ticks := tk; faults := [] |} =
  let w' :=
    {| TurnusUsers := rows; next_id := nid; next_conn := S nc;
       connections := delete nc (<[nc := []]> conns);
       log := EvClose nc :: EvExecute nc (SELECT_by_username u)
              :: EvConnect nc :: lg;
       ticks := S (S tk); faults := [] |} in
  match find_user rows u with
  | None => (Ret (text_response "Invalid credentials" 401), w')
  | Some user =>
    if check_password_hash (row_password user) p
    then
      if (datetime_max <? utcnow + 3600)%Z
      then (Raise OverflowError, w')
      else
        match issue (row_id user) utcnow with
        | Some token =>
          (Ret (set_cookie (redirect (url_for ep_protected)) "token" token),
           w')
        | None => (Raise NotImplementedError, w')
        end
    else (Ret (text_response "Invalid credentials" 401), w')
  end.
Proof.
  intros (Hm & Hu & Hp). rewrite find_user_filter.
  unfold login. rewrite Hm. unfold_statements. rewrite Hu, Hp.
  follow_run; [reflexivity|].
  match goal with
  | |- context [check_password_hash ?h ?pw] =>
    destruct (check_password_hash h pw)
  end; [|reflexivity].
  simpl. destruct (datetime_max <? utcnow + 3600)%Z; reflexivity.
Qed.

(** The law of werkzeug's hashing. *)
Hypothesis check_generate :
  forall pw salt, check_password_hash (generate_password_hash pw salt) pw = true.

Lemma find_user_None rows u :
  find_user rows u = None <->
  forall r, In r rows -> sql_eq (row_username r) u = false.
Proof.
  unfold find_user. split.
  - intros H r Hr. exact (List.find_none _ _ H r Hr).
  - induction rows as [|r rows IH]; intros H; simpl; [reflexivity|].
    rewrite (H r (or_introl eq_refl)). apply IH.
    intros r' Hr'. apply H. right. exact Hr'.
Qed.

Lemma find_user_Some rows u r :
  find_user rows u = Some r -> In r rows /\ sql_eq (row_username r) u = true.
Proof. unfold find_user. apply List.find_some. Qed.

Lemma find_user_app_new rows u new :
  find_user rows u = None ->
  sql_eq (row_username new) u = true ->
  find_user (rows ++ [new]) u = Some new.
Proof.
  unfold find_user. induction rows as [|r rows IH]; simpl; intros Hn Hnew.
  - rewrite Hnew. reflexivity.
  - destruct (sql_eq (row_username r) u); [discriminate|]. apply IH; assumption.
Qed.

(** The SELECT finds a row exactly when the comparison of the column matches
    the username with the username of some row. *)
Lemma find_user_found rows u :
  (exists r, find_user rows u = Some r) <->
  (exists r, In r rows /\ sql_eq (row_username r) u = true).
Proof.
  split.
  - intros [r Hr]. exists r. apply find_user_Some. exact Hr.
  - intros (r & Hin & He).
    destruct (find_user rows u) as [r'|] eqn:Hf; [exists r'; reflexivity|].
    rewrite (proj1 (find_user_None rows u) Hf r Hin) in He. discriminate He.
Qed.

(** C7, as the code has it: with no failing round trip a registration is
    answered, and the answer has status 409 exactly when the comparison the
    server applies to [username = %s] matches the submitted username with
    the username of some row; the 409 answer has the body "User already
    exists", no location and no cookie, and leaves the table as it was; any
    other answer is the 302 redirect to the login page, after one row with
    the submitted username and the hash of the password was appended. *)
Theorem register_conflict_iff salt request w u p :
  submits request u p ->
  faults w = [] ->
  exists resp w',
    register salt request w = (Ret resp, w') /\
    (status resp = 409 <->
     exists r, In r (TurnusUsers w) /\ sql_eq (row_username r) u = true) /\
    (status resp = 409 ->
     body resp = Text "User already exists" /\
     location resp = None /\
     set_cookies resp = [] /\
     TurnusUsers w' = TurnusUsers w) /\
    (status resp <> 409 ->
     status resp = 302 /\
     location resp = Some "/login" /\
     TurnusUsers w' =
       TurnusUsers w ++ [{| row_id := next_id w; row_username := u;
                            row_password := generate_password_hash p salt |}]).
Proof.
  intros Hs Hf. destruct w as [rows nid nc conns lg tk fl].
  simpl in *. subst fl. rewrite (register_run_healthy _ _ _ _ _ _ _ _ _ _ Hs).
  destruct (find_user rows u) as [r|] eqn:Hfind; cbv zeta; eexists; eexists;
    (split; [reflexivity|]); simpl.
  - split.
    { split; [|reflexivity].
      intros _. exists r. apply find_user_Some. exact Hfind. }
    split; [intros _; repeat split; reflexivity|].
    intros Hne. exfalso. apply Hne. reflexivity.
  - split.
    { split; [discriminate|]. intros (r & Hin & He).
      rewrite (proj1 (find_user_None rows u) Hfind r Hin) in He.
      discriminate He. }
    split; [discriminate|].
    intros _. repeat split; reflexivity.
Qed.

(** C1, as the code has it: on a store where the comparison of the column
    matches [u] with the username of no row, and [u] with itself, with no
    failing round trip, registering [u] with [p] is answered with the 302
    redirect to the login page after one row holding [u] and the hash of [p]
    was appended; a login with [u] and [p] right after, at a clock reading
    from which an hour can be added, is answered with the 302 redirect to
    the guarded page and sets the one cookie [token], holding the token
    issued for the [id] of that row, which validates to that [id]. *)
Theorem register_then_login salt utcnow request request' w u p :
  sql_eq u u = true ->
  submits request u p ->
  submits request' u p ->
  faults w = [] ->
  (forall r, In r (TurnusUsers w) -> sql_eq (row_username r) u = false) ->
  utcnow + 3600 <= datetime_max ->
  exists resp w1 new resp' token data,
    register salt request w = (Ret resp, w1) /\
    status resp = 302 /\
    location resp = Some "/login" /\
    TurnusUsers w1 = TurnusUsers w ++ [new] /\
    row_username new = u /\
    row_password new = generate_password_hash p salt /\
    fst (login utcnow request' w1) = Ret resp' /\
    status resp' = 302 /\
    location resp' = Some "/protected" /\
    set_cookies resp' = [SetCookie "token" token] /\
    issue (row_id new) utcnow = Some token /\
    validate token utcnow = Valid data /\
    user_id data = Some (row_id new).
Proof.
  intros Hrefl Hs Hs' Hf Hno Hclock. destruct w as [rows nid nc conns lg tk fl].
  simpl in *. subst fl.
  apply find_user_None in Hno.
  rewrite (register_run_healthy _ _ _ _ _ _ _ _ _ _ Hs), Hno. cbv zeta.
  set (new := {| row_id := nid; row_username := u;
                 row_password := generate_password_hash p salt |}).
  assert (Hbefore : utcnow < utcnow + 3600) by lia.
  destruct (issue_validate nid utcnow utcnow Hbefore)
    as (token & data & Htok & Hvalid & Huid).
  eexists. eexists. exists new. eexists. exists token, data.
  split; [reflexivity|]. split; [reflexivity|]. split; [reflexivity|].
  split; [reflexivity|]. split; [reflexivity|]. split; [reflexivity|].
  rewrite (login_run_healthy _ _ _ _ _ _ _ _ _ _ Hs').
  rewrite (find_user_app_new rows u new Hno Hrefl).
  cbv zeta. simpl row_password. rewrite check_generate.
  destruct (Z.ltb_spec datetime_max (utcnow + 3600)) as [Hover|_]; [lia|].
  simpl row_id. rewrite Htok. simpl.
  repeat split; try reflexivity; assumption.
Qed.

(** C6: a login whose username matches no row and a login whose username
    matches a row but whose password fails the hash check get the same
    answer, status 401 with the same body. *)
Theorem login_failures_indistinguishable
  utcnow utcnow' request request' w w' u p u' p' user :
  submits request u p ->
  submits request' u' p' ->
  faults w = [] ->
  faults w' = [] ->
  (forall r, In r (TurnusUsers w) -> sql_eq (row_username r) u = false) ->
  find_user (TurnusUsers w') u' = Some user ->
  check_password_hash (row_password user) p' = false ->
  fst (login utcnow request w) =
    Ret (text_response "Invalid credentials" 401) /\
  fst (login utcnow' request' w') = fst (login utcnow request w).
Proof.
  intros Hs Hs' Hf Hf' Hno Hfind Hcheck.
  apply find_user_None in Hno.
  destruct w as [rows nid nc conns lg tk fl].
  destruct w' as [rows' nid' nc' conns' lg' tk' fl'].
  simpl in *. subst fl fl'.
  rewrite (login_run_healthy _ _ _ _ _ _ _ _ _ _ Hs).
  rewrite (login_run_healthy _ _ _ _ _ _ _ _ _ _ Hs').
  rewrite Hno, Hfind, Hcheck. split; reflexivity.
Qed.

(** Every way a view can end, as an equation between pairs: the ones
    that raise are dismissed, the ones that return give the final world. *)
Ltac settle_run :=
  let H := fresh "Hrun" in
  intros H; first [discriminate H | injection H as <- <-].

(** The events a run put in front of the log it started from. *)
Ltac new_events :=
  match goal with
  | |- ?l = ?evs ++ ?lg =>
    let rec go l :=
      match l with
      | lg => constr:(@nil event)
      | ?e :: ?t => let r := go t in constr:(e :: r)
      end in
    let v := go l in unify evs v; reflexivity
  end.

(** C10: when [register] answers 409 the table and the [id] counter are
    what they were, and none of the statements the request sent is an
    INSERT or a commit. *)
Theorem conflict_leaves_store salt request w resp w' :
  register salt request w = (Ret resp, w') ->
  status resp = 409 ->
  TurnusUsers w' = TurnusUsers w /\
  next_id w' = next_id w /\
  exists evs,
    log w' = evs ++ log w /\
    forallb (fun e => negb (is_write e)) evs = true.
Proof.
  destruct w as [rows nid nc conns lg tk fl]. unfold register.
  destruct (method request);
    [unfold ret; intros [= <- <-]; discriminate | |];
    unfold_statements;
    (destruct (dict_get (form request) "username") as [u|];
       [|discriminate]);
    (destruct (dict_get (form request) "password") as [p|];
       [|discriminate]);
    follow_run; settle_run; simpl; intros Hst; try discriminate Hst;
    (split; [reflexivity|]); (split; [reflexivity|]);
    exists [EvClose nc; EvExecute nc (SELECT_by_username u); EvConnect nc];
    split; reflexivity.
Qed.

(** C9, as the code has it: whenever [register] or [login] returns a
    response, every connection the request opened has been closed. *)
Theorem connection_released_on_return :
  (forall salt request w resp w',
      register salt request w = (Ret resp, w') ->
      connections_released w w') /\
  (forall utcnow request w resp w',
      login utcnow request w = (Ret resp, w') ->
      connections_released w w').
Proof.
  split.
  - intros salt request w resp w'.
    destruct w as [rows nid nc conns lg tk fl]. unfold register.
    destruct (method request);
      [unfold ret; intros [= <- <-]; exists []; split;
         [reflexivity | intros h []] | |];
      unfold_statements;
      (destruct (dict_get (form request) "username") as [u|];
         [|discriminate]);
      (destruct (dict_get (form request) "password") as [p|];
         [|discriminate]);
      follow_run; settle_run; unfold connections_released; simpl.
    all: eexists; (split; [new_events|]).
    all: intros h Hin; simpl in Hin.
    all: repeat (destruct Hin as [Hin|Hin]; try discriminate Hin).
    all: try contradiction.
    all: injection Hin as <-; split; [simpl; tauto | apply lookup_delete_eq].
  - intros utcnow request w resp w'.
    destruct w as [rows nid nc conns lg tk fl]. unfold login.
    destruct (method request);
      [unfold ret; intros [= <- <-]; exists []; split;
         [reflexivity | intros h []] | |];
      unfold_statements;
      (destruct (dict_get (form request) "username") as [u|];
         [|discriminate]);
      (destruct (dict_get (form request) "password") as [p|];
         [|discriminate]);
      follow_run;
      try match goal with
          | |- context [check_password_hash ?h ?pw] =>
            destruct (check_password_hash h pw); simpl
          end;
      try match goal with
          | |- context [Z.ltb datetime_max ?t] =>
            destruct (Z.ltb datetime_max t); simpl
          end;
      settle_run; unfold connections_released; simpl.
    all: eexists; (split; [new_events|]).
    all: intros h Hin; simpl in Hin.
    all: repeat (destruct Hin as [Hin|Hin]; try discriminate Hin).
    all: try contradiction.
    all: injection Hin as <-; split; [simpl; tauto | apply lookup_delete_eq].
Qed.

(** ** Logout *)

Lemma protected_run now request w :
  protected now request w =
  match dict_get (cookies request) "token" with
  | None => (Ret (redirect (url_for ep_login)), w)
  | Some token =>
    if String.eqb token "" then (Ret (redirect (url_for ep_login)), w)
    else
      match validate token now with
      | Valid data =>
        match user_id data with
        | Some uid =>
          (Ret (render_template "protected.html" [("user_id", uid)]),
           with_log (EvDecode token) w)
        | None => (Raise (KeyError "user_id"), with_log (EvDecode token) w)
        end
      | Expired | Invalid =>
        (Ret (redirect (url_for ep_login)), with_log (EvDecode token) w)
      end
  end.
Proof. unfold protected. rewrite token_required_run. reflexivity. Qed.

(** C8: [logout] answers by deleting the cookie and leaves the world as it
    was; what the guarded view answers to a request is the same in every
    world, [validate] having only the token, the secret and the clock to
    look at; so a token issued for [uid] still opens the guarded view, before
    its expiry, in the world a logout leaves behind. *)
Theorem logout_keeps_tokens_valid :
  (forall request w,
      logout request w =
      (Ret (delete_cookie (redirect (url_for ep_login)) "token"), w)) /\
  (forall now request w w',
      fst (protected now request w') = fst (protected now request w)) /\
  (forall uid utcnow now request request' w,
      now < utcnow + 3600 ->
      exists token,
        issue uid utcnow = Some token /\
        (dict_get (cookies request) "token" = Some token ->
         fst (protected now request (snd (logout request' w))) =
         Ret (render_template "protected.html" [("user_id", uid)]))).
Proof.
  split; [reflexivity|]. split.
  - intros now request w w'. rewrite !protected_run.
    destruct (dict_get (cookies request) "token") as [token|]; [|reflexivity].
    destruct (String.eqb token ""); [reflexivity|].
    destruct (validate token now) as [data| |]; try reflexivity.
    destruct (user_id data); reflexivity.
  - intros uid utcnow now request request' w Hnow.
    destruct (issue_validate uid utcnow now Hnow)
      as (token & data & Hi & Hv & Hu).
    exists token. split; [exact Hi|]. intros Hc.
    rewrite protected_run, Hc.
    destruct (String.eqb token "") eqn:He.
    + apply String.eqb_eq in He. subst token.
      rewrite validate_empty in Hv. discriminate.
    + rewrite Hv, Hu. reflexivity.
Qed.

(** ** Further properties of the token checks *)

(** X12: [algorithms=[JWT_ALGORITHM]]: a token whose header names another
    algorithm, or none, is invalid whatever its signature segment holds. *)
Theorem other_algorithm_rejected h p c header_data header now :
  has_dot h = false ->
  has_dot c = false ->
  base64url_decode h = Some header_data ->
  json_loads_header header_data = Some header ->
  header <> Some JWT_ALGORITHM ->
  validate ((h +:+ "." +:+ p) +:+ "." +:+ c) now = Invalid.
Proof.
  intros Hh Hc Hd Hj Hne. unfold validate.
  rewrite (jwt_decode_segments _ _ _ _ _ Hh Hc), Hd, Hj.
  destruct (base64url_decode p) as [payload_data|]; [|reflexivity].
  destruct (base64url_decode c) as [signature|]; [|reflexivity].
  destruct header as [alg|]; [|reflexivity].
  destruct (String.eqb alg JWT_ALGORITHM) eqn:Halg; [|reflexivity].
  apply String.eqb_eq in Halg. subst alg. contradiction.
Qed.

(** X13: the [try] of the guard catches the errors of [jwt.decode] only: for a
    token that carries the right signature and is not expired but has no
    [user_id] entry, the [KeyError] of [data['user_id']] leaves the guard,
    and the wrapped view is not called. *)
Theorem guard_lets_KeyError_escape f now request w payload :
  user_id payload = None ->
  (forall e, exp payload = Some e -> now < e) ->
  dict_get (cookies request) "token" =
    Some (signing_input_of payload +:+ "." +:+
          crypto_segment_of SECRET_KEY (signing_input_of payload)) ->
  token_required f now request w =
  (Raise (KeyError "user_id"),
   with_log (EvDecode (signing_input_of payload +:+ "." +:+
                       crypto_segment_of SECRET_KEY (signing_input_of payload)))
            w).
Proof.
  intros Hu He Hc.
  destruct (validate_encode payload now) as (token & Henc & _ & Hv).
  rewrite jwt_encode_HS256 in Henc. injection Henc as <-.
  assert (Hvalid : validate
                     (signing_input_of payload +:+ "." +:+
                      crypto_segment_of SECRET_KEY (signing_input_of payload))
                     now = Valid payload).
  { rewrite Hv. destruct (exp payload) as [e|]; [|reflexivity].
    destruct (Z.leb_spec e now) as [Hle|_]; [|reflexivity].
    specialize (He e eq_refl). lia. }
  rewrite token_required_run, Hc.
  destruct (String.eqb _ "") eqn:Hempty.
  - apply String.eqb_eq in Hempty. rewrite Hempty in Hvalid.
    rewrite validate_empty in Hvalid. discriminate Hvalid.
  - rewrite Hvalid, Hu. reflexivity.
Qed.

(** ** Further properties of the views *)

(** Every way a view can end, returning or raising. *)
Ltac settle_any :=
  let H := fresh "Hrun" in
  intros H; injection H as <- <-.

Ltac open_view request :=
  unfold_statements;
  let Hu := fresh "Husername" in
  let Hp := fresh "Hpassword" in
  destruct (dict_get (form request) "username") as [?u|] eqn:Hu;
  [destruct (dict_get (form request) "password") as [?p|] eqn:Hp|];
  follow_run.

(** X1: [request.form[...]] comes before [get_db_connection()]: a request other
    than GET that lacks a form field raises [BadRequestKeyError] for the
    first missing field, in [register] and in [login], and leaves the world
    as it was, so that no connection is opened and no round trip made. *)
Theorem missing_field_raises_before_store salt utcnow request w :
  method request <> GET ->
  (dict_get (form request) "username" = None ->
   register salt request w = (Raise (BadRequestKeyError "username"), w) /\
   login utcnow request w = (Raise (BadRequestKeyError "username"), w)) /\
  (forall u,
      dict_get (form request) "username" = Some u ->
      dict_get (form request) "password" = None ->
      register salt request w = (Raise (BadRequestKeyError "password"), w) /\
      login utcnow request w = (Raise (BadRequestKeyError "password"), w)).
Proof.
  intros Hm. unfold register, login.
  destruct (method request); [contradiction | |];
    (split; [intros Hu | intros u Hu Hp]);
    unfold form_get, bind, raise, ret; rewrite Hu; try rewrite Hp;
    split; reflexivity.
Qed.

Lemma register_outcomes salt request w r w' :
  register salt request w = (r, w') ->
  (r = Ret (redirect (url_for ep_login)) /\
   exists u p,
     dict_get (form request) "username" = Some u /\
     dict_get (form request) "password" = Some p /\
     find_user (TurnusUsers w) u = None /\
     TurnusUsers w' =
       TurnusUsers w ++ [{| row_id := next_id w; row_username := u;
                            row_password := generate_password_hash p salt |}])
  \/
  (r <> Ret (redirect (url_for ep_login)) /\ TurnusUsers w' = TurnusUsers w).
Proof.
  destruct w as [rows nid nc conns lg tk fl]. unfold register.
  destruct (method request);
    [unfold ret; intros [= <- <-]; right; split; [discriminate | reflexivity]
    | |];
    open_view request; settle_any; simpl;
    first [ right; split; [discriminate | reflexivity]
          | left; split; [reflexivity|];
            exists u, p; rewrite find_user_filter;
            match goal with H : List.filter _ _ = [] |- _ => rewrite H end;
            repeat split; reflexivity ].
Qed.

(** X2: [register] never rewrites or removes a row: whatever the request
    and the fault plan, the table afterwards is the table before, or the
    table before followed by one row that holds the submitted username and
    the hash of the submitted password, and this only when the SELECT found
    no row for that username; and when [register] returns a response, the
    row was appended if the status is 302 and the table is as it was if it is
    not. *)
Theorem register_appends_at_most_one_row salt request w r w' :
  register salt request w = (r, w') ->
  (TurnusUsers w' = TurnusUsers w \/
   exists u p,
     dict_get (form request) "username" = Some u /\
     dict_get (form request) "password" = Some p /\
     find_user (TurnusUsers w) u = None /\
     TurnusUsers w' =
       TurnusUsers w ++ [{| row_id := next_id w; row_username := u;
                            row_password := generate_password_hash p salt |}])
  /\
  (forall resp,
      r = Ret resp ->
      (status resp = 302 ->
       length (TurnusUsers w') = S (length (TurnusUsers w))) /\
      (status resp <> 302 -> TurnusUsers w' = TurnusUsers w)).
Proof.
  destruct w as [rows nid nc conns lg tk fl]. unfold register.
  destruct (method request);
    [unfold ret; intros [= <- <-]; split;
       [left; reflexivity
       | intros resp [= <-]; split; [discriminate | intros _; reflexivity]]
    | |];
    open_view request; settle_any; simpl;
    (split;
     [first [ left; reflexivity
            | right; exists u, p; rewrite find_user_filter;
              match goal with H : List.filter _ _ = [] |- _ => rewrite H end;
              repeat split; reflexivity ]
     | intros resp Hresp;
       first
         [ discriminate Hresp
         | injection Hresp as <-; simpl; split;
           [ intros Hst; first [ discriminate Hst
                               | rewrite length_app; simpl; lia ]
           | intros Hst; first [ reflexivity
                               | exfalso; apply Hst; reflexivity ] ] ] ]).
Qed.

(** X3: [login] only reads: whatever the request and the fault plan, the table
    and the [id] counter are what they were, and no INSERT and no commit was
    sent. *)
Theorem login_reads_only utcnow request w r w' :
  login utcnow request w = (r, w') ->
  TurnusUsers w' = TurnusUsers w /\
  next_id w' = next_id w /\
  exists evs,
    log w' = evs ++ log w /\
    forallb (fun e => negb (is_write e)) evs = true.
Proof.
  destruct w as [rows nid nc conns lg tk fl]. unfold login.
  destruct (method request);
    [unfold ret; intros [= <- <-]; repeat split; exists []; split; reflexivity
    | |];
    open_view request;
    try match goal with
        | |- context [check_password_hash ?h ?pw] =>
          destruct (check_password_hash h pw); simpl
        end;
    try match goal with
        | |- context [Z.ltb datetime_max ?t] =>
          destruct (Z.ltb datetime_max t); simpl
        end;
    settle_any; simpl;
    (split; [reflexivity|]); (split; [reflexivity|]);
    eexists; (split; [new_events | reflexivity]).
Qed.

(** X4: [login] sets the cookie only after the checks: whatever the fault plan,
    a 302 answer means that the SELECT found a row for the submitted
    username, that the stored hash accepts the submitted password, and that
    the cookie holds the token issued for the [id] of that row; every other
    answer carries no cookie. *)
Theorem login_cookie_only_on_success utcnow request w resp w' :
  login utcnow request w = (Ret resp, w') ->
  (status resp = 302 ->
   exists u p user token,
     dict_get (form request) "username" = Some u /\
     dict_get (form request) "password" = Some p /\
     find_user (TurnusUsers w) u = Some user /\
     check_password_hash (row_password user) p = true /\
     issue (row_id user) utcnow = Some token /\
     resp = set_cookie (redirect (url_for ep_protected)) "token" token) /\
  (status resp <> 302 -> set_cookies resp = []).
Proof.
  destruct w as [rows nid nc conns lg tk fl]. unfold login.
  destruct (method request);
    [unfold ret; intros [= <- <-]; split;
       [intros Hs; discriminate Hs | reflexivity]
    | |];
    open_view request;
    try match goal with
        | |- context [check_password_hash ?h ?pw] =>
          destruct (check_password_hash h pw) eqn:Hcheck; simpl
        end;
    try match goal with
        | |- context [Z.ltb datetime_max ?t] =>
          destruct (Z.ltb datetime_max t); simpl
        end;
    settle_run; simpl;
    (split; [intros Hs; try discriminate Hs
            | intros Hs; try reflexivity; exfalso; apply Hs; reflexivity]).
  all: match goal with
       | H : List.filter _ _ = ?user :: _ |- _ =>
         exists u, p, user; eexists;
         rewrite find_user_filter, H; repeat split; eauto
       end.
Qed.

(** X5: the guarded page makes no round trip to the store: it does not look the
    user up again.  Without a cookie, or with an empty one, the world is
    left as it was and [jwt.decode] is not called; otherwise the one thing
    that happens to the world is one call of [jwt.decode] on the cookie. *)
Theorem protected_leaves_store now request w :
  match dict_get (cookies request) "token" with
  | None => protected now request w = (Ret (redirect (url_for ep_login)), w)
  | Some token =>
    if String.eqb token ""
    then protected now request w = (Ret (redirect (url_for ep_login)), w)
    else snd (protected now request w) = with_log (EvDecode token) w
  end.
Proof.
  rewrite protected_run.
  destruct (dict_get (cookies request) "token") as [token|]; [|reflexivity].
  destruct (String.eqb token ""); [reflexivity|].
  destruct (validate token now) as [data| |]; try reflexivity.
  destruct (user_id data); reflexivity.
Qed.

Lemma handles_fresh_unused w :
  handles_fresh w -> connections w !! next_conn w = None.
Proof.
  intros Hinv. destruct (connections w !! next_conn w) as [x|] eqn:E;
    [|reflexivity].
  assert (next_conn w < next_conn w)%nat by (apply Hinv; rewrite E; eauto).
  lia.
Qed.

Ltac fresh_after nc Hinv :=
  let h := fresh "h" in
  let Hh := fresh "Hh" in
  intros h Hh; simpl in *;
  destruct (decide (h = nc)) as [->|?]; [lia|];
  rewrite ?lookup_delete_ne, ?lookup_insert_ne in Hh by congruence;
  apply Hinv in Hh; lia.

(** X6: connections do not pile up on the paths that return: in a world where
    every open connection was handed out earlier, [register] and [login]
    keep that property whatever happens, and when they return a response
    the table of open connections is the one they started from. *)
Theorem connections_restored :
  (forall salt request w r w',
      handles_fresh w ->
      register salt request w = (r, w') ->
      handles_fresh w' /\
      (forall resp, r = Ret resp -> connections w' = connections w)) /\
  (forall utcnow request w r w',
      handles_fresh w ->
      login utcnow request w = (r, w') ->
      handles_fresh w' /\
      (forall resp, r = Ret resp -> connections w' = connections w)).
Proof.
  split.
  - intros salt request w r w' Hinv.
    pose proof (handles_fresh_unused w Hinv) as Hnone.
    destruct w as [rows nid nc conns lg tk fl]. unfold register.
    unfold handles_fresh in Hinv. simpl in Hinv, Hnone.
    destruct (method request);
      [unfold ret; intros [= <- <-]; split; [exact Hinv | reflexivity] | |];
      open_view request; settle_any;
      (split; [first [exact Hinv | fresh_after nc Hinv]|]);
      intros resp Hr; try discriminate Hr; simpl;
      rewrite ?delete_insert_eq; apply delete_id; exact Hnone.
  - intros utcnow request w r w' Hinv.
    pose proof (handles_fresh_unused w Hinv) as Hnone.
    destruct w as [rows nid nc conns lg tk fl]. unfold login.
    unfold handles_fresh in Hinv. simpl in Hinv, Hnone.
    destruct (method request);
      [unfold ret; intros [= <- <-]; split; [exact Hinv | reflexivity] | |];
      open_view request;
      try match goal with
          | |- context [check_password_hash ?h ?pw] =>
            destruct (check_password_hash h pw); simpl
          end;
      try match goal with
          | |- context [Z.ltb datetime_max ?t] =>
            destruct (Z.ltb datetime_max t); simpl
          end;
      settle_any;
      (split; [first [exact Hinv | fresh_after nc Hinv]|]);
      intros resp Hr; try discriminate Hr; simpl;
      rewrite ?delete_insert_eq; apply delete_id; exact Hnone.
Qed.

(** X7: registering the same username again: in a world where no round trip
    fails, whatever the table held before and whatever the first
    registration answered, a second one with that username, and any
    password, is answered 409 and leaves the table as the first one left it.
    The one thing asked of the collation is that a username equals itself. *)
Theorem register_twice_conflicts salt salt' request request' w u p p' :
  sql_eq u u = true ->
  submits request u p ->
  submits request' u p' ->
  faults w = [] ->
  let w1 := snd (register salt request w) in
  register salt' request' w1 =
    (Ret (text_response "User already exists" 409),
     snd (register salt' request' w1)) /\
  TurnusUsers (snd (register salt' request' w1)) = TurnusUsers w1.
Proof.
  intros Hrefl Hs Hs' Hf. destruct w as [rows nid nc conns lg tk fl].
  simpl in Hf. subst fl. cbv zeta.
  rewrite (register_run_healthy _ _ _ _ _ _ _ _ _ _ Hs).
  destruct (find_user rows u) as [r|] eqn:Hfind; cbv zeta; simpl snd;
    rewrite (register_run_healthy _ _ _ _ _ _ _ _ _ _ Hs').
  - rewrite Hfind. split; reflexivity.
  - rewrite find_user_app_new by (assumption || exact Hrefl).
    split; reflexivity.
Qed.

Lemma find_user_None_fresh rows u :
  (forall a, sql_eq a a = true) ->
  find_user rows u = None ->
  ~ In u (map row_username rows).
Proof.
  intros Hrefl Hnone Hin. apply in_map_iff in Hin as (r & <- & Hr).
  pose proof (proj1 (find_user_None rows (row_username r)) Hnone r Hr) as Hno.
  rewrite Hrefl in Hno. discriminate Hno.
Qed.

(** X8: usernames stay distinct: when no two rows of the table share a username
    and the collation finds every username equal to itself, the same holds
    after [register], whatever the request and the fault plan. *)
Theorem register_keeps_usernames_distinct salt request w :
  (forall a, sql_eq a a = true) ->
  List.NoDup (map row_username (TurnusUsers w)) ->
  List.NoDup (map row_username (TurnusUsers (snd (register salt request w)))).
Proof.
  intros Hrefl Hnd.
  destruct (register salt request w) as [r w'] eqn:Hrun.
  destruct (register_outcomes _ _ _ _ _ Hrun)
    as [(_ & u & p & _ & _ & Hnone & Hrows) | (_ & Hrows)];
    simpl; rewrite Hrows; [|exact Hnd].
  rewrite map_app. simpl.
  apply List.NoDup_app; [exact Hnd | |].
  - apply List.NoDup_cons; [intros [] | apply List.NoDup_nil].
  - intros x Hx [<-|[]].
    exact (find_user_None_fresh _ _ Hrefl Hnone Hx).
Qed.

(** X9: from the login form to the guarded page: when the SELECT finds a row
    for the submitted username whose hash accepts the submitted password,
    no round trip fails and an hour can be added to the clock reading,
    [login] answers with the 302 redirect to the guarded page and sets the
    one cookie [token]; with that cookie the guarded page, asked in any
    world, answers 200 with the [id] of that row until 3600 seconds after
    the login, and redirects to the login page from then on. *)
Theorem login_then_protected utcnow now request request' w w' u p user :
  submits request u p ->
  faults w = [] ->
  find_user (TurnusUsers w) u = Some user ->
  check_password_hash (row_password user) p = true ->
  utcnow + 3600 <= datetime_max ->
  exists resp token,
    fst (login utcnow request w) = Ret resp /\
    status resp = 302 /\
    location resp = Some "/protected" /\
    set_cookies resp = [SetCookie "token" token] /\
    (dict_get (cookies request') "token" = Some token ->
     exists resp',
       fst (protected now request' w') = Ret resp' /\
       if (now <? utcnow + 3600)%Z
       then status resp' = 200 /\
            body resp' = Template "protected.html" [("user_id", row_id user)]
       else status resp' = 302 /\ location resp' = Some "/login").
Proof.
  intros Hs Hf Hfind Hcheck Hclock. destruct w as [rows nid nc conns lg tk fl].
  simpl in *. subst fl.
  rewrite (login_run_healthy _ _ _ _ _ _ _ _ _ _ Hs), Hfind, Hcheck.
  cbv zeta.
  destruct (Z.ltb_spec datetime_max (utcnow + 3600)) as [Hover|_]; [lia|].
  unfold issue.
  destruct (validate_encode
              {| user_id := Some (row_id user); exp := Some (utcnow + 3600) |}
              now) as (token & Henc & _ & Hv).
  rewrite Henc. eexists. exists token.
  split; [reflexivity|]. split; [reflexivity|]. split; [reflexivity|].
  split; [reflexivity|]. intros Hc.
  rewrite protected_run, Hc.
  destruct (String.eqb token "") eqn:Hempty.
  - apply String.eqb_eq in Hempty. subst token.
    rewrite validate_empty in Hv. simpl in Hv.
    destruct (utcnow + 3600 <=? now)%Z; discriminate Hv.
  - rewrite Hv. simpl.
    destruct (Z.leb_spec (utcnow + 3600) now) as [Hle|Hlt],
             (Z.ltb_spec now (utcnow + 3600)) as [Hlt'|Hle'];
      try lia; eexists; (split; [reflexivity|]); split; reflexivity.
Qed.

End App.

(** * The executable instance: laws, witnesses and a counterexample *)

Abbreviation toy_issue :=
  (issue Toy.SECRET_KEY Toy.hmac_sha256 Toy.base64url_encode
         Toy.json_dumps_header Toy.json_dumps_claims).
Abbreviation toy_validate :=
  (validate Toy.SECRET_KEY Toy.hmac_sha256 Toy.base64url_decode
            Toy.json_loads_header Toy.json_loads_claims).
Abbreviation toy_token_required :=
  (token_required Toy.SECRET_KEY Toy.hmac_sha256 Toy.base64url_decode
                  Toy.json_loads_header Toy.json_loads_claims).
Abbreviation toy_protected :=
  (protected Toy.SECRET_KEY Toy.hmac_sha256 Toy.base64url_decode
             Toy.json_loads_header Toy.json_loads_claims).
Abbreviation toy_register :=
  (register Toy.sql_eq Toy.generate_password_hash).
Abbreviation toy_login :=
  (login Toy.sql_eq Toy.check_password_hash Toy.SECRET_KEY Toy.hmac_sha256
         Toy.base64url_encode Toy.json_dumps_header Toy.json_dumps_claims).
Abbreviation toy_token uid utcnow := (default "" (toy_issue uid utcnow)).

Lemma toy_bits_roundtrip p : Toy.pos_of_bits (Toy.bits_of_pos p) = Some p.
Proof. induction p as [p IH|p IH|]; simpl; rewrite ?IH; reflexivity. Qed.

Lemma toy_bits_no_dot p : has_dot (Toy.bits_of_pos p) = false.
Proof. induction p as [p IH|p IH|]; simpl; [exact IH | exact IH | reflexivity]. Qed.

Lemma toy_base64url_roundtrip s :
  Toy.base64url_decode (Toy.base64url_encode s) = Some s.
Proof.
  unfold Toy.base64url_decode, Toy.base64url_encode.
  rewrite toy_bits_roundtrip. apply decode_encode.
Qed.

Lemma toy_base64url_alphabet s : has_dot (Toy.base64url_encode s) = false.
Proof. apply toy_bits_no_dot. Qed.

Lemma toy_header_roundtrip alg :
  Toy.json_loads_header (Toy.json_dumps_header alg) = Some (Some alg).
Proof. reflexivity. Qed.

Lemma toy_claims_roundtrip c :
  Toy.json_loads_claims (Toy.json_dumps_claims c) = Some c.
Proof.
  destruct c as [u e]. unfold Toy.json_loads_claims, Toy.json_dumps_claims.
  rewrite toy_bits_roundtrip, decode_encode. reflexivity.
Qed.

Lemma toy_prefix_app a b : String.prefix a (a +:+ b) = true.
Proof.
  induction a as [|c a IH]; [rewrite append_nil; destruct b; reflexivity|].
  rewrite append_cons. simpl.
  destruct (ascii_dec c c) as [_|Hne]; [exact IH | contradiction].
Qed.

Lemma toy_check_generate pw salt :
  Toy.check_password_hash (Toy.generate_password_hash pw salt) pw = true.
Proof.
  unfold Toy.check_password_hash, Toy.generate_password_hash.
  rewrite <- append_assoc. apply toy_prefix_app.
Qed.

(** ** Witnesses *)

Lemma issued_token_validates_witness :
  2000 < 1000 + 3600 /\
  exists token data,
    toy_issue 7 1000 = Some token /\
    toy_validate token 2000 = Valid data /\
    user_id data = Some 7.
Proof.
  split; [lia|].
  apply (issued_token_validates
           Toy.SECRET_KEY Toy.hmac_sha256
           Toy.base64url_encode Toy.base64url_decode
           Toy.json_dumps_header Toy.json_loads_header
           Toy.json_dumps_claims Toy.json_loads_claims
           toy_base64url_roundtrip toy_base64url_alphabet
           toy_header_roundtrip toy_claims_roundtrip 7 1000 2000).
  lia.
Defined.

Lemma issued_token_expires_witness :
  exists token data,
    toy_issue 7 1000 = Some token /\
    unverified_claims Toy.base64url_decode Toy.json_loads_claims token
      = Some data /\
    exp data = Some (1000 + 3600) /\
    signature_verifies Toy.SECRET_KEY Toy.hmac_sha256 Toy.base64url_decode
      token /\
    forall now, 1000 + 3600 <= now -> toy_validate token now = Expired.
Proof.
  exact (issued_token_expires
           Toy.SECRET_KEY Toy.hmac_sha256
           Toy.base64url_encode Toy.base64url_decode
           Toy.json_dumps_header Toy.json_loads_header
           Toy.json_dumps_claims Toy.json_loads_claims
           toy_base64url_roundtrip toy_base64url_alphabet
           toy_header_roundtrip toy_claims_roundtrip 7 1000).
Defined.

Lemma forged_token_invalid_witness : toy_validate "abc" 0 = Invalid.
Proof.
  apply (proj1 (forged_token_invalid
                  Toy.SECRET_KEY Toy.hmac_sha256
                  Toy.base64url_encode Toy.base64url_decode
                  Toy.json_dumps_header Toy.json_loads_header
                  Toy.json_dumps_claims Toy.json_loads_claims
                  toy_base64url_roundtrip toy_base64url_alphabet)).
  right. intros (signing_input & c & E & _).
  apply (f_equal has_dot) in E. rewrite !has_dot_app in E. simpl in E.
  rewrite orb_true_r in E. discriminate E.
Defined.

Lemma guard_behaviour_witness :
  toy_token_required protected_view 0 (Toy.get_with_cookies []) Toy.empty_world
    = (Ret (redirect (url_for ep_login)), Toy.empty_world) /\
  (fst (toy_token_required protected_view 5000
          (Toy.get_with_cookies [("token", toy_token 7 1000)]) Toy.empty_world)
     = Ret (redirect (url_for ep_login)) /\
   fst (toy_token_required protected_view 0
          (Toy.get_with_cookies [("token", "abc")]) Toy.empty_world)
     = Ret (redirect (url_for ep_login))) /\
  (exists request',
      toy_token_required protected_view 2000
        (Toy.get_with_cookies [("token", toy_token 7 1000)]) Toy.empty_world =
      protected_view request'
        (with_log (EvDecode (toy_token 7 1000)) Toy.empty_world) /\
      request' =
        set_request_user_id
          (Toy.get_with_cookies [("token", toy_token 7 1000)]) 7 /\
      request_user_id request' = Some 7 /\
      method request' =
        method (Toy.get_with_cookies [("token", toy_token 7 1000)]) /\
      form request' =
        form (Toy.get_with_cookies [("token", toy_token 7 1000)]) /\
      cookies request' =
        cookies (Toy.get_with_cookies [("token", toy_token 7 1000)])).
Proof.
  pose proof (guard_behaviour
                Toy.SECRET_KEY Toy.hmac_sha256 Toy.base64url_decode
                Toy.json_loads_header Toy.json_loads_claims)
    as (Habsent & Hfail & _ & Hvalid & _).
  split; [|split].
  - apply Habsent. reflexivity.
  - apply (Hfail protected_view protected_view 5000 0
             (Toy.get_with_cookies [("token", toy_token 7 1000)])
             (Toy.get_with_cookies [("token", "abc")])
             Toy.empty_world Toy.empty_world (toy_token 7 1000) "abc").
    + reflexivity.
    + reflexivity.
    + vm_compute. reflexivity.
    + vm_compute. reflexivity.
  - apply (Hvalid protected_view 2000
             (Toy.get_with_cookies [("token", toy_token 7 1000)])
             Toy.empty_world (toy_token 7 1000)
             {| user_id := Some 7; exp := Some 4600 |} 7).
    + reflexivity.
    + vm_compute. reflexivity.
    + reflexivity.
Defined.

Lemma toy_submits u p : submits (Toy.post u p) u p.
Proof. repeat split; reflexivity. Qed.

Lemma register_conflict_iff_witness :
  (exists resp w',
      toy_register "s2" (Toy.post "alice" "pw2") Toy.alice_world =
        (Ret resp, w') /\
      (status resp = 409 <->
       exists r, In r (TurnusUsers Toy.alice_world) /\
                 Toy.sql_eq (row_username r) "alice" = true) /\
      (status resp = 409 ->
       body resp = Text "User already exists" /\
       location resp = None /\
       set_cookies resp = [] /\
       TurnusUsers w' = TurnusUsers Toy.alice_world) /\
      (status resp <> 409 ->
       status resp = 302 /\
       location resp = Some "/login" /\
       TurnusUsers w' =
         TurnusUsers Toy.alice_world ++
         [{| row_id := next_id Toy.alice_world; row_username := "alice";
             row_password := Toy.generate_password_hash "pw2" "s2" |}])) /\
  (exists resp w',
      toy_register "s2" (Toy.post "bob" "pw2") Toy.alice_world =
        (Ret resp, w') /\
      (status resp = 409 <->
       exists r, In r (TurnusUsers Toy.alice_world) /\
                 Toy.sql_eq (row_username r) "bob" = true) /\
      (status resp = 409 ->
       body resp = Text "User already exists" /\
       location resp = None /\
       set_cookies resp = [] /\
       TurnusUsers w' = TurnusUsers Toy.alice_world) /\
      (status resp <> 409 ->
       status resp = 302 /\
       location resp = Some "/login" /\
       TurnusUsers w' =
         TurnusUsers Toy.alice_world ++
         [{| row_id := next_id Toy.alice_world; row_username := "bob";
             row_password := Toy.generate_password_hash "pw2" "s2" |}])).
Proof.
  split.
  - apply (register_conflict_iff Toy.sql_eq Toy.generate_password_hash
             "s2" (Toy.post "alice" "pw2") Toy.alice_world "alice" "pw2").
    + apply toy_submits.
    + reflexivity.
  - apply (register_conflict_iff Toy.sql_eq Toy.generate_password_hash
             "s2" (Toy.post "bob" "pw2") Toy.alice_world "bob" "pw2").
    + apply toy_submits.
    + reflexivity.
Defined.

Lemma register_then_login_witness :
  exists resp w1 new resp' token data,
    toy_register "s2" (Toy.post "bob" "pw2") Toy.alice_world =
      (Ret resp, w1) /\
    status resp = 302 /\
    location resp = Some "/login" /\
    TurnusUsers w1 = TurnusUsers Toy.alice_world ++ [new] /\
    row_username new = "bob" /\
    row_password new = Toy.generate_password_hash "pw2" "s2" /\
    fst (toy_login 1000 (Toy.post "bob" "pw2") w1) = Ret resp' /\
    status resp' = 302 /\
    location resp' = Some "/protected" /\
    set_cookies resp' = [SetCookie "token" token] /\
    toy_issue (row_id new) 1000 = Some token /\
    toy_validate token 1000 = Valid data /\
    user_id data = Some (row_id new).
Proof.
  apply (register_then_login
           Toy.sql_eq Toy.generate_password_hash Toy.check_password_hash
           Toy.SECRET_KEY Toy.hmac_sha256
           Toy.base64url_encode Toy.base64url_decode
           Toy.json_dumps_header Toy.json_loads_header
           Toy.json_dumps_claims Toy.json_loads_claims
           toy_base64url_roundtrip toy_base64url_alphabet
           toy_header_roundtrip toy_claims_roundtrip
           toy_check_generate
           "s2" 1000 (Toy.post "bob" "pw2") (Toy.post "bob" "pw2")
           Toy.alice_world "bob" "pw2").
  - reflexivity.
  - apply toy_submits.
  - apply toy_submits.
  - reflexivity.
  - intros r [<-|[]]. reflexivity.
  - vm_compute. discriminate.
Defined.

Lemma login_failures_indistinguishable_witness :
  fst (toy_login 1000 (Toy.post "bob" "pw1") Toy.alice_world) =
    Ret (text_response "Invalid credentials" 401) /\
  fst (toy_login 2000 (Toy.post "alice" "wrong") Toy.alice_world) =
  fst (toy_login 1000 (Toy.post "bob" "pw1") Toy.alice_world).
Proof.
  apply (login_failures_indistinguishable
           Toy.sql_eq Toy.check_password_hash
           Toy.SECRET_KEY Toy.hmac_sha256 Toy.base64url_encode
           Toy.json_dumps_header Toy.json_dumps_claims
           1000 2000 (Toy.post "bob" "pw1") (Toy.post "alice" "wrong")
           Toy.alice_world Toy.alice_world "bob" "pw1" "alice" "wrong"
           {| row_id := 1; row_username := "alice"; row_password := "pw1$s1" |}).
  - apply toy_submits.
  - apply toy_submits.
  - reflexivity.
  - reflexivity.
  - intros r [<-|[]]. reflexivity.
  - reflexivity.
  - reflexivity.
Defined.

Lemma conflict_leaves_store_witness :
  let run := toy_register "s2" (Toy.post "alice" "pw2") Toy.alice_world in
  TurnusUsers (snd run) = TurnusUsers Toy.alice_world /\
  next_id (snd run) = next_id Toy.alice_world /\
  exists evs,
    log (snd run) = evs ++ log Toy.alice_world /\
    forallb (fun e => negb (is_write e)) evs = true.
Proof.
  intros run.
  apply (conflict_leaves_store Toy.sql_eq Toy.generate_password_hash
           "s2" (Toy.post "alice" "pw2") Toy.alice_world
           (text_response "User already exists" 409) (snd run)).
  - vm_compute. reflexivity.
  - reflexivity.
Defined.

Lemma connection_released_on_return_witness :
  connections_released Toy.empty_world
    (snd (toy_register "s1" (Toy.post "alice" "pw1") Toy.empty_world)) /\
  connections_released Toy.alice_world
    (snd (toy_login 1000 (Toy.post "alice" "pw1") Toy.alice_world)).
Proof.
  pose proof (connection_released_on_return
                Toy.sql_eq Toy.generate_password_hash Toy.check_password_hash
                Toy.SECRET_KEY Toy.hmac_sha256 Toy.base64url_encode
                Toy.json_dumps_header Toy.json_dumps_claims)
    as [Hregister Hlogin].
  split.
  - apply (Hregister "s1" (Toy.post "alice" "pw1") Toy.empty_world
             (redirect (url_for ep_login))).
    vm_compute. reflexivity.
  - apply (Hlogin 1000 (Toy.post "alice" "pw1") Toy.alice_world
             (set_cookie (redirect (url_for ep_protected)) "token"
                (toy_token 1 1000))).
    vm_compute. reflexivity.
Defined.

Lemma logout_keeps_tokens_valid_witness :
  2000 < 1000 + 3600 /\
  exists token,
    toy_issue 7 1000 = Some token /\
    (dict_get (cookies (Toy.get_with_cookies [("token", toy_token 7 1000)]))
       "token" = Some token ->
     fst (toy_protected 2000
            (Toy.get_with_cookies [("token", toy_token 7 1000)])
            (snd (logout (Toy.get_with_cookies []) Toy.alice_world))) =
     Ret (render_template "protected.html" [("user_id", 7)])).
Proof.
  split; [lia|].
  apply (proj2 (proj2 (logout_keeps_tokens_valid
                         Toy.SECRET_KEY Toy.hmac_sha256
                         Toy.base64url_encode Toy.base64url_decode
                         Toy.json_dumps_header Toy.json_loads_header
                         Toy.json_dumps_claims Toy.json_loads_claims
                         toy_base64url_roundtrip toy_base64url_alphabet
                         toy_header_roundtrip toy_claims_roundtrip))
           7 1000 2000).
  lia.
Defined.

(** ** A counterexample *)

(** C9 as the specification states it, release on error paths included,
    fails: when the SELECT of a login or of a registration raises, the
    exception leaves the view with the connection it opened still open. *)
Lemma connection_left_open_on_error :
  let run := toy_login 1000 (Toy.post "alice" "pw1") Toy.flaky_world in
  let run' := toy_register "s1" (Toy.post "alice" "pw1") Toy.flaky_world in
  (fst run = Raise DatabaseError /\
   connections (snd run) !! 0%nat = Some [] /\
   ~ connections_released Toy.flaky_world (snd run)) /\
  (fst run' = Raise DatabaseError /\
   connections (snd run') !! 0%nat = Some [] /\
   ~ connections_released Toy.flaky_world (snd run')).
Proof.
  intros run run'.
  assert (Hopen : connections (snd run) !! 0%nat = Some [])
    by (vm_compute; reflexivity).
  assert (Hopen' : connections (snd run') !! 0%nat = Some [])
    by (vm_compute; reflexivity).
  assert (Hl : log (snd run) = [EvConnect 0]) by (vm_compute; reflexivity).
  assert (Hl' : log (snd run') = [EvConnect 0]) by (vm_compute; reflexivity).
  split; (split; [vm_compute; reflexivity|]).
  - split; [exact Hopen|]. intros (evs & Hlog & Hreleased).
    rewrite Hl in Hlog. simpl in Hlog. rewrite app_nil_r in Hlog. subst evs.
    destruct (Hreleased 0%nat (or_introl eq_refl)) as [_ Hclosed].
    rewrite Hclosed in Hopen. discriminate Hopen.
  - split; [exact Hopen'|]. intros (evs & Hlog & Hreleased).
    rewrite Hl' in Hlog. simpl in Hlog. rewrite app_nil_r in Hlog. subst evs.
    destruct (Hreleased 0%nat (or_introl eq_refl)) as [_ Hclosed].
    rewrite Hclosed in Hopen'. discriminate Hopen'.
Qed.

(** C7 as the specification states it, with the match case-sensitive and
    exact, fails where the column compares without regard to case: the
    registration of ALICE is answered 409, and the table left as it was,
    though no row holds the username ALICE. *)
Lemma conflict_without_exact_match :
  let run := register Collation.general_ci Toy.generate_password_hash
               "s2" (Toy.post "ALICE" "pw2") Toy.alice_world in
  (exists resp,
      fst run = Ret resp /\ status resp = 409 /\
      body resp = Text "User already exists") /\
  TurnusUsers (snd run) = TurnusUsers Toy.alice_world /\
  ~ (exists r, In r (TurnusUsers Toy.alice_world) /\ row_username r = "ALICE").
Proof.
  intros run. split; [|split].
  - eexists. split; [vm_compute; reflexivity|]. split; reflexivity.
  - vm_compute. reflexivity.
  - intros (r & [<-|[]] & Hr). discriminate Hr.
Qed.

(** C1 as the specification states it fails in two places: where the column
    compares without regard to case, the registration of a username no row
    holds is refused with 409; and a login that follows a registration within
    an hour of the last [datetime] raises [OverflowError]. *)
Lemma registration_refused_without_record :
  let run := register Collation.general_ci Toy.generate_password_hash
               "s2" (Toy.post "Alice" "pw2") Toy.alice_world in
  let w1 := snd (toy_register "s2" (Toy.post "bob" "pw2") Toy.alice_world) in
  ((forall r, In r (TurnusUsers Toy.alice_world) -> row_username r <> "Alice") /\
   exists resp, fst run = Ret resp /\ status resp = 409) /\
  ((forall r, In r (TurnusUsers Toy.alice_world) -> row_username r <> "bob") /\
   fst (toy_login 253402299000 (Toy.post "bob" "pw2") w1) =
     Raise OverflowError).
Proof.
  intros run w1. split; split.
  - intros r [<-|[]]. discriminate.
  - eexists. split; [vm_compute; reflexivity | reflexivity].
  - intros r [<-|[]]. discriminate.
  - vm_compute. reflexivity.
Qed.

(** * The scheduling pages: properties *)

Ltac unfold_pages :=
  unfold createEmployee, viewEmployees, editEmployee, updateEmployee,
    employee_form, createShift, viewShifts, editShifts, updateShift,
    createShiftPage, pages_form_get, pages_bind, pages_ret, pages_raise,
    cursor_fetchall, cursor_fetchone, db_commit.

Lemma update_employees_Ids Name PositionPercent Id rows :
  map Employee.Id (update_employees Name PositionPercent Id rows) =
  map Employee.Id rows.
Proof.
  unfold update_employees. induction rows as [|r rows IH]; [reflexivity|].
  simpl. rewrite IH. destruct (Employee.Id r =? Id)%Z; reflexivity.
Qed.

Lemma update_employees_absent Name PositionPercent Id rows :
  (forall r, In r rows -> Employee.Id r <> Id) ->
  update_employees Name PositionPercent Id rows = rows.
Proof.
  unfold update_employees. induction rows as [|r rows IH]; intros H;
    [reflexivity|].
  simpl. rewrite IH by (intros r' Hr'; apply H; right; exact Hr').
  destruct (Z.eqb_spec (Employee.Id r) Id) as [E|_]; [|reflexivity].
  exfalso. exact (H r (or_introl eq_refl) E).
Qed.

Lemma update_employees_others Name PositionPercent Id rows k r :
  nth_error rows k = Some r ->
  Employee.Id r <> Id ->
  nth_error (update_employees Name PositionPercent Id rows) k = Some r.
Proof.
  intros Hk Hne. unfold update_employees.
  rewrite nth_error_map, Hk. simpl.
  destruct (Z.eqb_spec (Employee.Id r) Id) as [E|_];
    [contradiction | reflexivity].
Qed.

Lemma select_updated_employee Name PositionPercent Id rows :
  (exists r, In r rows /\ Employee.Id r = Id) ->
  exists rest,
    List.filter (fun r => Z.eqb (Employee.Id r) Id)
                (update_employees Name PositionPercent Id rows) =
    {| Employee.Id := Id; Employee.Name := Name;
       Employee.PositionPercent := PositionPercent |} :: rest.
Proof.
  unfold update_employees. induction rows as [|r rows IH];
    intros (r0 & Hin & Hid); [destruct Hin|].
  simpl. destruct (Z.eqb_spec (Employee.Id r) Id) as [E|Hne].
  - simpl. rewrite E, Z.eqb_refl. eexists. reflexivity.
  - simpl. destruct (Z.eqb_spec (Employee.Id r) Id) as [E|_];
      [contradiction|].
    apply IH. destruct Hin as [->|Hin]; [contradiction|].
    exists r0. split; assumption.
Qed.

Lemma select_absent_employee Id rows :
  (forall r, In r rows -> Employee.Id r <> Id) ->
  List.filter (fun r => Z.eqb (Employee.Id r) Id) rows = [].
Proof.
  induction rows as [|r rows IH]; intros H; [reflexivity|].
  simpl. destruct (Z.eqb_spec (Employee.Id r) Id) as [E|_].
  - exfalso. exact (H r (or_introl eq_refl) E).
  - apply IH. intros r' Hr'. apply H. right. exact Hr'.
Qed.

(** X14: [updateEmployee] then [editEmployee] on the same [Id]: the update is
    answered with the redirect to the list whether or not a row has that
    [Id]; when one has, the edit page then shows the [Id] with the submitted
    [Name] and [PositionPercent]; when none has, the table is left as it was
    and the edit page is rendered with no employee. *)
Theorem updateEmployee_then_edit Id request t Name PositionPercent :
  dict_get (form request) "Name" = Some Name ->
  dict_get (form request) "PositionPercent" = Some PositionPercent ->
  let t1 := snd (updateEmployee Id request t) in
  fst (updateEmployee Id request t) = Ret (redirected "/viewEmployees") /\
  ((exists r, In r (employees t) /\ Employee.Id r = Id) ->
   fst (editEmployee Id t1) =
     Ret (rendered "editEmployee.html"
            (row_argument
               (Some (employee_row
                        {| Employee.Id := Id; Employee.Name := Name;
                           Employee.PositionPercent := PositionPercent |}))))) /\
  ((forall r, In r (employees t) -> Employee.Id r <> Id) ->
   employees t1 = employees t /\
   fst (editEmployee Id t1) =
     Ret (rendered "editEmployee.html" (row_argument None))).
Proof.
  intros HN HP. unfold_pages. rewrite HN, HP. simpl.
  split; [reflexivity|]. split.
  - intros Hex.
    destruct (select_updated_employee Name PositionPercent Id _ Hex)
      as [rest ->].
    reflexivity.
  - intros Hno. rewrite (update_employees_absent _ _ _ _ Hno).
    split; [reflexivity|].
    rewrite (select_absent_employee _ _ Hno). reflexivity.
Qed.

(** X15: what [updateEmployee] leaves alone: the [Id]s of the rows and their
    order, every row with another [Id], the shifts, and the next [Id] of
    both tables; and the one statement it sends is followed by a commit. *)
Theorem updateEmployee_frame Id request t Name PositionPercent :
  dict_get (form request) "Name" = Some Name ->
  dict_get (form request) "PositionPercent" = Some PositionPercent ->
  let t1 := snd (updateEmployee Id request t) in
  map Employee.Id (employees t1) = map Employee.Id (employees t) /\
  (forall k r, nth_error (employees t) k = Some r ->
               Employee.Id r <> Id ->
               nth_error (employees t1) k = Some r) /\
  employees_next_Id t1 = employees_next_Id t /\
  shifts t1 = shifts t /\
  shifts_next_Id t1 = shifts_next_Id t /\
  sent t1 =
    commit_sent
    :: statement_sent (UPDATE_employees Name PositionPercent Id) :: sent t.
Proof.
  intros HN HP. unfold_pages. rewrite HN, HP. simpl.
  split; [apply update_employees_Ids|].
  split; [intros k r; apply update_employees_others|].
  repeat split; reflexivity.
Qed.

(** X16: [createEmployee] then [viewEmployees]: the new employee is answered
    with the redirect to the form, and the list then shows the rows that
    were there, in their order, followed by one row with the submitted
    fields; the INSERT is followed by a commit and the shifts are left
    alone. *)
Theorem createEmployee_then_view request t Name PositionPercent :
  dict_get (form request) "Name" = Some Name ->
  dict_get (form request) "PositionPercent" = Some PositionPercent ->
  let t1 := snd (createEmployee request t) in
  fst (createEmployee request t) = Ret (redirected "/") /\
  fst (viewEmployees t1) =
    Ret (rendered "viewEmployees.html"
           (rows_argument
              (map employee_row
                   (employees t ++
                    [{| Employee.Id := employees_next_Id t;
                        Employee.Name := Name;
                        Employee.PositionPercent := PositionPercent |}])))) /\
  shifts t1 = shifts t /\
  sent t1 =
    commit_sent
    :: statement_sent (INSERT_employees Name PositionPercent) :: sent t.
Proof.
  intros HN HP. unfold_pages. rewrite HN, HP. simpl.
  repeat split; reflexivity.
Qed.

Lemma update_shifts_Ids Name StartTime EndTime Length Id rows :
  map Shift.Id (update_shifts Name StartTime EndTime Length Id rows) =
  map Shift.Id rows.
Proof.
  unfold update_shifts. induction rows as [|r rows IH]; [reflexivity|].
  simpl. rewrite IH. destruct (Shift.Id r =? Id)%Z; reflexivity.
Qed.

Lemma update_shifts_absent Name StartTime EndTime Length Id rows :
  (forall r, In r rows -> Shift.Id r <> Id) ->
  update_shifts Name StartTime EndTime Length Id rows = rows.
Proof.
  unfold update_shifts. induction rows as [|r rows IH]; intros H;
    [reflexivity|].
  simpl. rewrite IH by (intros r' Hr'; apply H; right; exact Hr').
  destruct (Z.eqb_spec (Shift.Id r) Id) as [E|_]; [|reflexivity].
  exfalso. exact (H r (or_introl eq_refl) E).
Qed.

Lemma update_shifts_others Name StartTime EndTime Length Id rows k r :
  nth_error rows k = Some r ->
  Shift.Id r <> Id ->
  nth_error (update_shifts Name StartTime EndTime Length Id rows) k = Some r.
Proof.
  intros Hk Hne. unfold update_shifts.
  rewrite nth_error_map, Hk. simpl.
  destruct (Z.eqb_spec (Shift.Id r) Id) as [E|_];
    [contradiction | reflexivity].
Qed.

Lemma select_updated_shift Name StartTime EndTime Length Id rows :
  (exists r, In r rows /\ Shift.Id r = Id) ->
  exists rest,
    List.filter (fun r => Z.eqb (Shift.Id r) Id)
                (update_shifts Name StartTime EndTime Length Id rows) =
    {| Shift.Id := Id; Shift.Name := Name; Shift.StartTime := StartTime;
       Shift.EndTime := EndTime; Shift.Length := Length |} :: rest.
Proof.
  unfold update_shifts. induction rows as [|r rows IH];
    intros (r0 & Hin & Hid); [destruct Hin|].
  simpl. destruct (Z.eqb_spec (Shift.Id r) Id) as [E|Hne].
  - simpl. rewrite E, Z.eqb_refl. eexists. reflexivity.
  - simpl. destruct (Z.eqb_spec (Shift.Id r) Id) as [E|_];
      [contradiction|].
    apply IH. destruct Hin as [->|Hin]; [contradiction|].
    exists r0. split; assumption.
Qed.

Lemma select_absent_shift Id rows :
  (forall r, In r rows -> Shift.Id r <> Id) ->
  List.filter (fun r => Z.eqb (Shift.Id r) Id) rows = [].
Proof.
  induction rows as [|r rows IH]; intros H; [reflexivity|].
  simpl. destruct (Z.eqb_spec (Shift.Id r) Id) as [E|_].
  - exfalso. exact (H r (or_introl eq_refl) E).
  - apply IH. intros r' Hr'. apply H. right. exact Hr'.
Qed.

(** A form that submits the four fields of a shift. *)
Lemma shift_fields request Name StartTime EndTime Length t
  (k : string -> string -> string -> string -> Pages page) :
  dict_get (form request) "Name" = Some Name ->
  dict_get (form request) "StartTime" = Some StartTime ->
  dict_get (form request) "EndTime" = Some EndTime ->
  dict_get (form request) "Length" = Some Length ->
  (Name <- pages_form_get request "Name" ;;
   StartTime <- pages_form_get request "StartTime" ;;
   EndTime <- pages_form_get request "EndTime" ;;
   Length <- pages_form_get request "Length" ;;
   k Name StartTime EndTime Length)%pages t =
  k Name StartTime EndTime Length t.
Proof.
  intros HN HS HE HL. unfold pages_form_get, pages_bind, pages_ret.
  rewrite HN, HS, HE, HL. reflexivity.
Qed.

(** X17: [updateShift] then [editShifts] on the same [Id]: the update is
    answered with the redirect to the list whether or not a row has that
    [Id]; when one has, the edit page then shows the [Id] with the four
    submitted fields; when none has, the table is left as it was and the
    edit page is rendered with no shift. *)
Theorem updateShift_then_edit Id request t Name StartTime EndTime Length :
  dict_get (form request) "Name" = Some Name ->
  dict_get (form request) "StartTime" = Some StartTime ->
  dict_get (form request) "EndTime" = Some EndTime ->
  dict_get (form request) "Length" = Some Length ->
  let t1 := snd (updateShift Id request t) in
  fst (updateShift Id request t) = Ret (redirected "/viewShifts") /\
  ((exists r, In r (shifts t) /\ Shift.Id r = Id) ->
   fst (editShifts Id t1) =
     Ret (rendered "editShifts.html"
            (row_argument
               (Some (shift_row
                        {| Shift.Id := Id; Shift.Name := Name;
                           Shift.StartTime := StartTime;
                           Shift.EndTime := EndTime;
                           Shift.Length := Length |}))))) /\
  ((forall r, In r (shifts t) -> Shift.Id r <> Id) ->
   shifts t1 = shifts t /\
   fst (editShifts Id t1) =
     Ret (rendered "editShifts.html" (row_argument None))).
Proof.
  intros HN HS HE HL. unfold updateShift.
  rewrite (shift_fields _ _ _ _ _ _ _ HN HS HE HL).
  unfold_pages. simpl.
  split; [reflexivity|]. split.
  - intros Hex.
    destruct (select_updated_shift Name StartTime EndTime Length Id _ Hex)
      as [rest ->].
    reflexivity.
  - intros Hno. rewrite (update_shifts_absent _ _ _ _ _ _ Hno).
    split; [reflexivity|].
    rewrite (select_absent_shift _ _ Hno). reflexivity.
Qed.

(** X18: what [updateShift] leaves alone: the [Id]s of the rows and their order,
    every row with another [Id], the employees, and the next [Id] of both
    tables; and the one statement it sends is followed by a commit. *)
Theorem updateShift_frame Id request t Name StartTime EndTime Length :
  dict_get (form request) "Name" = Some Name ->
  dict_get (form request) "StartTime" = Some StartTime ->
  dict_get (form request) "EndTime" = Some EndTime ->
  dict_get (form request) "Length" = Some Length ->
  let t1 := snd (updateShift Id request t) in
  map Shift.Id (shifts t1) = map Shift.Id (shifts t) /\
  (forall k r, nth_error (shifts t) k = Some r ->
               Shift.Id r <> Id ->
               nth_error (shifts t1) k = Some r) /\
  shifts_next_Id t1 = shifts_next_Id t /\
  employees t1 = employees t /\
  employees_next_Id t1 = employees_next_Id t /\
  sent t1 =
    commit_sent
    :: statement_sent (UPDATE_shifts Name StartTime EndTime Length Id)
    :: sent t.
Proof.
  intros HN HS HE HL. unfold updateShift.
  rewrite (shift_fields _ _ _ _ _ _ _ HN HS HE HL).
  unfold_pages. simpl.
  split; [apply update_shifts_Ids|].
  split; [intros k r; apply update_shifts_others|].
  repeat split; reflexivity.
Qed.

(** X19: [createShift] then [viewShifts]: the new shift is answered with the
    redirect to the list, which then shows the rows that were there, in
    their order, followed by one row with the submitted fields; the INSERT
    is followed by a commit and the employees are left alone. *)
Theorem createShift_then_view request t Name StartTime EndTime Length :
  dict_get (form request) "Name" = Some Name ->
  dict_get (form request) "StartTime" = Some StartTime ->
  dict_get (form request) "EndTime" = Some EndTime ->
  dict_get (form request) "Length" = Some Length ->
  let t1 := snd (createShift request t) in
  fst (createShift request t) = Ret (redirected "/viewShifts") /\
  fst (viewShifts t1) =
    Ret (rendered "viewShifts.html"
           (rows_argument
              (map shift_row
                   (shifts t ++
                    [{| Shift.Id := shifts_next_Id t; Shift.Name := Name;
                        Shift.StartTime := StartTime;
                        Shift.EndTime := EndTime;
                        Shift.Length := Length |}])))) /\
  employees t1 = employees t /\
  sent t1 =
    commit_sent
    :: statement_sent (INSERT_shifts Name StartTime EndTime Length)
    :: sent t.
Proof.
  intros HN HS HE HL. unfold createShift.
  rewrite (shift_fields _ _ _ _ _ _ _ HN HS HE HL).
  unfold_pages. simpl. repeat split; reflexivity.
Qed.

(** X20: a form that lacks a field: the four views that read a form raise
    [BadRequestKeyError] for the first field, in the order the view reads
    them, that the form lacks, and leave the tables, the cursor and the
    connection as they were: nothing is sent before the form is read. *)
Theorem pages_missing_field Id request t k :
  (first_missing ["Name"; "PositionPercent"] (form request) = Some k ->
   createEmployee request t = (Raise (BadRequestKeyError k), t) /\
   updateEmployee Id request t = (Raise (BadRequestKeyError k), t)) /\
  (first_missing ["Name"; "StartTime"; "EndTime"; "Length"] (form request)
     = Some k ->
   createShift request t = (Raise (BadRequestKeyError k), t) /\
   updateShift Id request t = (Raise (BadRequestKeyError k), t)).
Proof.
  unfold_pages. simpl. split.
  - destruct (dict_get (form request) "Name");
      [destruct (dict_get (form request) "PositionPercent")|];
      intros [= <-] || discriminate; split; reflexivity.
  - destruct (dict_get (form request) "Name");
      [destruct (dict_get (form request) "StartTime");
       [destruct (dict_get (form request) "EndTime");
        [destruct (dict_get (form request) "Length")|]|]|];
      intros [= <-] || discriminate; split; reflexivity.
Qed.

(** X21: the views that only read: [viewEmployees], [editEmployee],
    [viewShifts] and [editShifts] leave the three tables and the next [Id]s
    as they were, and what they send over the shared connection is one
    SELECT and no commit. *)
Theorem reading_pages_leave_tables id t :
  let same (t' : tables) (q : sql) :=
    employees t' = employees t /\ employees_next_Id t' = employees_next_Id t /\
    shifts t' = shifts t /\ shifts_next_Id t' = shifts_next_Id t /\
    rotations t' = rotations t /\
    sent t' = statement_sent q :: sent t in
  same (snd (viewEmployees t)) SELECT_employees /\
  same (snd (editEmployee id t)) (SELECT_employees_by_id id) /\
  same (snd (viewShifts t)) SELECT_shifts /\
  same (snd (editShifts id t)) (SELECT_shifts_by_id id).
Proof.
  cbv zeta. unfold_pages. simpl.
  destruct (List.filter (fun r => (Employee.Id r =? id)%Z) (employees t));
    destruct (List.filter (fun r => (Shift.Id r =? id)%Z) (shifts t));
    simpl; repeat split; reflexivity.
Qed.

(** ** The rotation calendar *)

Section RotationProperties.

Variable isoformat : date -> string.

Definition event_of (d : date) (employee_name shift_name : string)
  : calendar_event :=
  {| title := employee_name +:+ " (" +:+ shift_name +:+ ")";
     start := isoformat d |}.

Lemma join_rotations_rows rs es ss row :
  In row (join_rotations rs es ss) <->
  exists r e s,
    In r rs /\ In e es /\ In s ss /\
    Employee_FK_Id r = Employee.Id e /\
    Shift_FK_Id r = Shift.Id s /\
    row = rotation_row (rotation_date r) (Employee.Name e) (Shift.Name s).
Proof.
  unfold join_rotations. rewrite in_flat_map. split.
  - intros (r & Hr & Hrow). apply in_flat_map in Hrow as (e & He & Hrow).
    destruct (Z.eqb_spec (Employee_FK_Id r) (Employee.Id e)) as [Ee|_];
      [|destruct Hrow].
    apply in_flat_map in Hrow as (s & Hs & Hrow).
    destruct (Z.eqb_spec (Shift_FK_Id r) (Shift.Id s)) as [Es|_];
      [|destruct Hrow].
    destruct Hrow as [<-|[]]. exists r, e, s. repeat split; assumption.
  - intros (r & e & s & Hr & He & Hs & Ee & Es & ->).
    exists r. split; [exact Hr|]. apply in_flat_map. exists e.
    split; [exact He|]. rewrite Ee, Z.eqb_refl.
    apply in_flat_map. exists s. split; [exact Hs|].
    rewrite Es, Z.eqb_refl. left. reflexivity.
Qed.

Lemma rotation_events_rows data :
  (forall row, In row data ->
               exists d a b, row = rotation_row d a b) ->
  exists events,
    rotation_events isoformat data = Ret events /\
    length events = length data /\
    forall ev, In ev events <->
               exists d a b, In (rotation_row d a b) data /\
                             ev = event_of d a b.
Proof.
  induction data as [|row data IH]; intros Hrows.
  - exists []. split; [reflexivity|]. split; [reflexivity|].
    intros ev. split; [intros [] | intros (d & a & b & [] & _)].
  - destruct (Hrows row (or_introl eq_refl)) as (d & a & b & ->).
    destruct IH as (events & Hev & Hlen & Hin).
    { intros row Hrow. apply Hrows. right. exact Hrow. }
    exists (event_of d a b :: events). simpl. rewrite Hev.
    split; [reflexivity|]. split; [rewrite Hlen; reflexivity|].
    intros ev. split.
    + intros [<-|Hev'].
      * exists d, a, b. split; [left; reflexivity | reflexivity].
      * apply Hin in Hev' as (d' & a' & b' & Hrow & ->).
        exists d', a', b'. split; [right; exact Hrow | reflexivity].
    + intros (d' & a' & b' & [Hrow|Hrow] & ->).
      * injection Hrow as <- <- <-. left. reflexivity.
      * right. apply Hin. exists d', a', b'. split; [exact Hrow|reflexivity].
Qed.

Lemma join_rotations_kind rs es ss row :
  In row (join_rotations rs es ss) -> exists d a b, row = rotation_row d a b.
Proof.
  intros H. apply join_rotations_rows in H as (r & e & s & _ & _ & _ & _ & _ & ->).
  eauto.
Qed.

(** X22: [get_rotations] is an inner join: whenever it returns a list, the
    tables are as they were, and an event is in the list exactly when it is
    the event of a rotation, an employee and a shift of the tables whose keys
    meet; a rotation whose employee or whose shift is gone shows no event. *)
Theorem get_rotations_inner_join t events t' :
  get_rotations isoformat t = (Ret (json_list events), t') ->
  employees t' = employees t /\
  shifts t' = shifts t /\
  rotations t' = rotations t /\
  forall ev,
    In ev events <->
    exists r e s,
      In r (rotations t) /\ In e (employees t) /\ In s (shifts t) /\
      Employee_FK_Id r = Employee.Id e /\
      Shift_FK_Id r = Shift.Id s /\
      ev = event_of (rotation_date r) (Employee.Name e) (Shift.Name s).
Proof.
  destruct (rotation_events_rows
              (join_rotations (rotations t) (employees t) (shifts t)))
    as (events' & Hev & _ & Hin).
  { intros row. apply join_rotations_kind. }
  unfold get_rotations, pages_bind, cursor_fetchall. simpl.
  rewrite Hev. intros Hrun. injection Hrun as <- <-. simpl.
  repeat split; try reflexivity.
  - intros Hev'. apply Hin in Hev' as (d & a & b & Hrow & ->).
    apply join_rotations_rows in Hrow
      as (r & e & s & Hr & He & Hs & Ee & Es & Hrow).
    injection Hrow as -> -> ->. exists r, e, s. repeat split; assumption.
  - intros (r & e & s & Hr & He & Hs & Ee & Es & ->). apply Hin.
    exists (rotation_date r), (Employee.Name e), (Shift.Name s).
    split; [|reflexivity]. apply join_rotations_rows.
    exists r, e, s. repeat split; assumption.
Qed.

Lemma keyed_flat_map_length {A B} (key : A -> Z) (g : A -> list B) x l n :
  List.NoDup (map key l) ->
  (forall a, (length (g a) <= n)%nat) ->
  (length (flat_map (fun a => if Z.eqb x (key a) then g a else []) l) <= n)%nat.
Proof.
  intros Hnd Hg. induction l as [|a l IH]; simpl; [lia|].
  inversion Hnd as [|k ks Hnotin Hnd']; subst.
  rewrite length_app. destruct (Z.eqb_spec x (key a)) as [E|_].
  - assert (Hrest : flat_map (fun a0 => if Z.eqb x (key a0) then g a0 else []) l
                    = []).
    { clear IH Hnd Hnd'. induction l as [|b l IHl]; [reflexivity|].
      simpl. destruct (Z.eqb_spec x (key b)) as [E'|_].
      - exfalso. apply Hnotin. left. congruence.
      - apply IHl. intros Hin. apply Hnotin. right. exact Hin. }
    rewrite Hrest. simpl. rewrite Nat.add_0_r. apply Hg.
  - simpl. apply IH. exact Hnd'.
Qed.

Lemma keyed_flat_map_found {A B} (key : A -> Z) (g : A -> list B) x l n :
  List.NoDup (map key l) ->
  (exists a, In a l /\ key a = x) ->
  (forall a, In a l -> key a = x -> length (g a) = n) ->
  length (flat_map (fun a => if Z.eqb x (key a) then g a else []) l) = n.
Proof.
  intros Hnd (a0 & Hin & Hkey) Hg. induction l as [|a l IH]; [destruct Hin|].
  inversion Hnd as [|k ks Hnotin Hnd']; subst. simpl. rewrite length_app.
  destruct (Z.eqb_spec (key a0) (key a)) as [E|Hne].
  - assert (Hrest : flat_map (fun a1 => if Z.eqb (key a0) (key a1)
                                        then g a1 else []) l = []).
    { clear IH Hnd Hnd' Hg Hin. induction l as [|b l IHl]; [reflexivity|].
      simpl. destruct (Z.eqb_spec (key a0) (key b)) as [E'|_].
      - exfalso. apply Hnotin. left. congruence.
      - apply IHl. intros Hin. apply Hnotin. right. exact Hin. }
    rewrite Hrest. simpl. rewrite (Hg a (or_introl eq_refl)) by congruence.
    lia.
  - simpl. destruct Hin as [->|Hin]; [contradiction|].
    apply IH; [exact Hnd' | exact Hin |].
    intros a1 Ha1. apply Hg. right. exact Ha1.
Qed.

(** X23: with distinct [Id]s in both tables no rotation shows twice: the list
    never has more events than there are rotations, and it has as many when
    the employee and the shift of every rotation exist. *)
Theorem get_rotations_one_event_each t :
  List.NoDup (map Employee.Id (employees t)) ->
  List.NoDup (map Shift.Id (shifts t)) ->
  exists events,
    fst (get_rotations isoformat t) = Ret (json_list events) /\
    (length events <= length (rotations t))%nat /\
    ((forall r, In r (rotations t) ->
                (exists e, In e (employees t) /\
                           Employee.Id e = Employee_FK_Id r) /\
                (exists s, In s (shifts t) /\ Shift.Id s = Shift_FK_Id r)) ->
     length events = length (rotations t)).
Proof.
  intros Hes Hss.
  destruct (rotation_events_rows
              (join_rotations (rotations t) (employees t) (shifts t)))
    as (events & Hev & Hlen & _).
  { intros row. apply join_rotations_kind. }
  exists events. unfold get_rotations, pages_bind, cursor_fetchall. simpl.
  rewrite Hev. simpl. split; [reflexivity|]. rewrite Hlen.
  clear Hev Hlen events. unfold join_rotations. split.
  - induction (rotations t) as [|r rs IH]; simpl; [lia|].
    rewrite length_app.
    match goal with
    | |- (length ?rows + _ <= _)%nat =>
      assert (length rows <= 1)%nat as Hone; [|lia]
    end.
    apply keyed_flat_map_length; [exact Hes|]. intros e.
    apply keyed_flat_map_length; [exact Hss|]. intros s. simpl. lia.
  - induction (rotations t) as [|r rs IH]; intros Hall; [reflexivity|].
    simpl. rewrite length_app.
    rewrite IH by (intros r' Hr'; apply Hall; right; exact Hr').
    destruct (Hall r (or_introl eq_refl)) as [He Hs].
    rewrite (keyed_flat_map_found Employee.Id _ _ _ 1%nat Hes He);
      [reflexivity|].
    intros e _ _.
    apply (keyed_flat_map_found Shift.Id _ _ _ 1%nat Hss Hs).
    intros s _ _. reflexivity.
Qed.

End RotationProperties.

(** * Witnesses of the further properties *)

Lemma other_algorithm_rejected_witness :
  toy_validate ((Toy.base64url_encode "none" +:+ "." +:+ "0") +:+ "." +:+ "1")
    0 = Invalid.
Proof.
  apply (other_algorithm_rejected Toy.SECRET_KEY Toy.hmac_sha256
           Toy.base64url_decode Toy.json_loads_header Toy.json_loads_claims
           (Toy.base64url_encode "none") "0" "1" "none" (Some "none") 0).
  - apply toy_base64url_alphabet.
  - reflexivity.
  - apply toy_base64url_roundtrip.
  - reflexivity.
  - discriminate.
Defined.

Lemma guard_lets_KeyError_escape_witness :
  let payload := {| user_id := None; exp := None |} in
  let token :=
    signing_input_of Toy.base64url_encode Toy.json_dumps_header
      Toy.json_dumps_claims payload +:+ "." +:+
    crypto_segment_of Toy.hmac_sha256 Toy.base64url_encode Toy.SECRET_KEY
      (signing_input_of Toy.base64url_encode Toy.json_dumps_header
         Toy.json_dumps_claims payload) in
  toy_token_required protected_view 0
    (Toy.get_with_cookies [("token", token)]) Toy.empty_world =
  (Raise (KeyError "user_id"), with_log (EvDecode token) Toy.empty_world).
Proof.
  intros payload token.
  apply (guard_lets_KeyError_escape
           Toy.SECRET_KEY Toy.hmac_sha256
           Toy.base64url_encode Toy.base64url_decode
           Toy.json_dumps_header Toy.json_loads_header
           Toy.json_dumps_claims Toy.json_loads_claims
           toy_base64url_roundtrip toy_base64url_alphabet
           toy_header_roundtrip toy_claims_roundtrip
           protected_view 0 (Toy.get_with_cookies [("token", token)])
           Toy.empty_world payload).
  - reflexivity.
  - intros e He. discriminate He.
  - reflexivity.
Defined.

Lemma missing_field_raises_before_store_witness :
  (dict_get (form Sample.empty_post) "username" = None ->
   toy_register "s1" Sample.empty_post Toy.flaky_world =
     (Raise (BadRequestKeyError "username"), Toy.flaky_world) /\
   toy_login 1000 Sample.empty_post Toy.flaky_world =
     (Raise (BadRequestKeyError "username"), Toy.flaky_world)) /\
  (forall u,
      dict_get (form Sample.empty_post) "username" = Some u ->
      dict_get (form Sample.empty_post) "password" = None ->
      toy_register "s1" Sample.empty_post Toy.flaky_world =
        (Raise (BadRequestKeyError "password"), Toy.flaky_world) /\
      toy_login 1000 Sample.empty_post Toy.flaky_world =
        (Raise (BadRequestKeyError "password"), Toy.flaky_world)).
Proof.
  apply (missing_field_raises_before_store
           Toy.sql_eq Toy.generate_password_hash Toy.check_password_hash
           Toy.SECRET_KEY Toy.hmac_sha256 Toy.base64url_encode
           Toy.json_dumps_header Toy.json_dumps_claims
           "s1" 1000 Sample.empty_post Toy.flaky_world).
  discriminate.
Defined.

Lemma register_appends_at_most_one_row_witness :
  let run := toy_register "s2" (Toy.post "bob" "pw2") Toy.alice_world in
  (TurnusUsers (snd run) = TurnusUsers Toy.alice_world \/
   exists u p,
     dict_get (form (Toy.post "bob" "pw2")) "username" = Some u /\
     dict_get (form (Toy.post "bob" "pw2")) "password" = Some p /\
     find_user Toy.sql_eq (TurnusUsers Toy.alice_world) u = None /\
     TurnusUsers (snd run) =
       TurnusUsers Toy.alice_world ++
       [{| row_id := next_id Toy.alice_world; row_username := u;
           row_password := Toy.generate_password_hash p "s2" |}])
  /\
  (forall resp,
      fst run = Ret resp ->
      (status resp = 302 ->
       length (TurnusUsers (snd run)) =
       S (length (TurnusUsers Toy.alice_world))) /\
      (status resp <> 302 ->
       TurnusUsers (snd run) = TurnusUsers Toy.alice_world)).
Proof.
  intros run.
  apply (register_appends_at_most_one_row
           Toy.sql_eq Toy.generate_password_hash
           "s2" (Toy.post "bob" "pw2") Toy.alice_world (fst run) (snd run)).
  vm_compute. reflexivity.
Defined.

Lemma login_reads_only_witness :
  let run := toy_login 1000 (Toy.post "alice" "pw1") Toy.alice_world in
  TurnusUsers (snd run) = TurnusUsers Toy.alice_world /\
  next_id (snd run) = next_id Toy.alice_world /\
  exists evs,
    log (snd run) = evs ++ log Toy.alice_world /\
    forallb (fun e => negb (is_write e)) evs = true.
Proof.
  intros run.
  apply (login_reads_only
           Toy.sql_eq Toy.check_password_hash
           Toy.SECRET_KEY Toy.hmac_sha256 Toy.base64url_encode
           Toy.json_dumps_header Toy.json_dumps_claims
           1000 (Toy.post "alice" "pw1") Toy.alice_world (fst run) (snd run)).
  vm_compute. reflexivity.
Defined.

Lemma login_cookie_only_on_success_witness :
  let run := toy_login 1000 (Toy.post "alice" "pw1") Toy.alice_world in
  let resp := set_cookie (redirect (url_for ep_protected)) "token"
                (toy_token 1 1000) in
  (status resp = 302 ->
   exists u p user token,
     dict_get (form (Toy.post "alice" "pw1")) "username" = Some u /\
     dict_get (form (Toy.post "alice" "pw1")) "password" = Some p /\
     find_user Toy.sql_eq (TurnusUsers Toy.alice_world) u = Some user /\
     Toy.check_password_hash (row_password user) p = true /\
     toy_issue (row_id user) 1000 = Some token /\
     resp = set_cookie (redirect (url_for ep_protected)) "token" token) /\
  (status resp <> 302 -> set_cookies resp = []).
Proof.
  intros run resp.
  apply (login_cookie_only_on_success
           Toy.sql_eq Toy.check_password_hash
           Toy.SECRET_KEY Toy.hmac_sha256 Toy.base64url_encode
           Toy.json_dumps_header Toy.json_dumps_claims
           1000 (Toy.post "alice" "pw1") Toy.alice_world resp (snd run)).
  vm_compute. reflexivity.
Defined.

Lemma toy_handles_fresh : handles_fresh Toy.alice_world.
Proof. intros h [x Hx]. vm_compute in Hx. discriminate Hx. Qed.

Lemma connections_restored_witness :
  let run := toy_register "s2" (Toy.post "bob" "pw2") Toy.alice_world in
  handles_fresh (snd run) /\
  (forall resp, fst run = Ret resp ->
                connections (snd run) = connections Toy.alice_world).
Proof.
  intros run.
  apply (proj1 (connections_restored
                  Toy.sql_eq Toy.generate_password_hash
                  Toy.check_password_hash
                  Toy.SECRET_KEY Toy.hmac_sha256 Toy.base64url_encode
                  Toy.json_dumps_header Toy.json_dumps_claims)
           "s2" (Toy.post "bob" "pw2") Toy.alice_world (fst run) (snd run)).
  - apply toy_handles_fresh.
  - vm_compute. reflexivity.
Defined.

Lemma register_twice_conflicts_witness :
  let w1 := snd (toy_register "s1" (Toy.post "alice" "pw1") Toy.empty_world) in
  toy_register "s2" (Toy.post "alice" "pw2") w1 =
    (Ret (text_response "User already exists" 409),
     snd (toy_register "s2" (Toy.post "alice" "pw2") w1)) /\
  TurnusUsers (snd (toy_register "s2" (Toy.post "alice" "pw2") w1)) =
  TurnusUsers w1.
Proof.
  apply (register_twice_conflicts Toy.sql_eq Toy.generate_password_hash
           "s1" "s2" (Toy.post "alice" "pw1") (Toy.post "alice" "pw2")
           Toy.empty_world "alice" "pw1" "pw2").
  - reflexivity.
  - apply toy_submits.
  - apply toy_submits.
  - reflexivity.
Defined.

Lemma toy_sql_eq_refl a : Toy.sql_eq a a = true.
Proof. apply String.eqb_refl. Qed.

Lemma register_keeps_usernames_distinct_witness :
  List.NoDup
    (map row_username
       (TurnusUsers
          (snd (toy_register "s2" (Toy.post "bob" "pw2") Toy.alice_world)))).
Proof.
  apply (register_keeps_usernames_distinct
           Toy.sql_eq Toy.generate_password_hash
           "s2" (Toy.post "bob" "pw2") Toy.alice_world).
  - apply toy_sql_eq_refl.
  - apply List.NoDup_cons; [intros [] | apply List.NoDup_nil].
Defined.

Lemma login_then_protected_witness :
  exists resp token,
    fst (toy_login 1000 (Toy.post "alice" "pw1") Toy.alice_world) = Ret resp /\
    status resp = 302 /\
    location resp = Some "/protected" /\
    set_cookies resp = [SetCookie "token" token] /\
    (dict_get (cookies (Toy.get_with_cookies [("token", toy_token 1 1000)]))
       "token" = Some token ->
     exists resp',
       fst (toy_protected 2000
              (Toy.get_with_cookies [("token", toy_token 1 1000)])
              Toy.empty_world) = Ret resp' /\
       if (2000 <? 1000 + 3600)%Z
       then status resp' = 200 /\
            body resp' = Template "protected.html" [("user_id", 1)]
       else status resp' = 302 /\ location resp' = Some "/login").
Proof.
  apply (login_then_protected
           Toy.sql_eq Toy.check_password_hash
           Toy.SECRET_KEY Toy.hmac_sha256
           Toy.base64url_encode Toy.base64url_decode
           Toy.json_dumps_header Toy.json_loads_header
           Toy.json_dumps_claims Toy.json_loads_claims
           toy_base64url_roundtrip toy_base64url_alphabet
           toy_header_roundtrip toy_claims_roundtrip
           1000 2000 (Toy.post "alice" "pw1")
           (Toy.get_with_cookies [("token", toy_token 1 1000)])
           Toy.alice_world Toy.empty_world "alice" "pw1"
           {| row_id := 1; row_username := "alice"; row_password := "pw1$s1" |}).
  - apply toy_submits.
  - reflexivity.
  - reflexivity.
  - reflexivity.
  - vm_compute. discriminate.
Defined.

Lemma updateEmployee_then_edit_witness :
  let request := Sample.employee_post "Bo B." "60" in
  let t1 := snd (updateEmployee 2 request Sample.db) in
  fst (updateEmployee 2 request Sample.db) = Ret (redirected "/viewEmployees") /\
  ((exists r, In r (employees Sample.db) /\ Employee.Id r = 2) ->
   fst (editEmployee 2 t1) =
     Ret (rendered "editEmployee.html"
            (row_argument
               (Some (employee_row
                        {| Employee.Id := 2; Employee.Name := "Bo B.";
                           Employee.PositionPercent := "60" |}))))) /\
  ((forall r, In r (employees Sample.db) -> Employee.Id r <> 2) ->
   employees t1 = employees Sample.db /\
   fst (editEmployee 2 t1) =
     Ret (rendered "editEmployee.html" (row_argument None))).
Proof.
  apply (updateEmployee_then_edit 2 (Sample.employee_post "Bo B." "60")
           Sample.db "Bo B." "60"); reflexivity.
Defined.

Lemma updateEmployee_frame_witness :
  let request := Sample.employee_post "Bo B." "60" in
  let t1 := snd (updateEmployee 2 request Sample.db) in
  map Employee.Id (employees t1) = map Employee.Id (employees Sample.db) /\
  (forall k r, nth_error (employees Sample.db) k = Some r ->
               Employee.Id r <> 2 ->
               nth_error (employees t1) k = Some r) /\
  employees_next_Id t1 = employees_next_Id Sample.db /\
  shifts t1 = shifts Sample.db /\
  shifts_next_Id t1 = shifts_next_Id Sample.db /\
  sent t1 =
    commit_sent :: statement_sent (UPDATE_employees "Bo B." "60" 2)
    :: sent Sample.db.
Proof.
  apply (updateEmployee_frame 2 (Sample.employee_post "Bo B." "60")
           Sample.db "Bo B." "60"); reflexivity.
Defined.

Lemma createEmployee_then_view_witness :
  let request := Sample.employee_post "Cy" "80" in
  let t1 := snd (createEmployee request Sample.db) in
  fst (createEmployee request Sample.db) = Ret (redirected "/") /\
  fst (viewEmployees t1) =
    Ret (rendered "viewEmployees.html"
           (rows_argument
              (map employee_row
                   (employees Sample.db ++
                    [{| Employee.Id := employees_next_Id Sample.db;
                        Employee.Name := "Cy";
                        Employee.PositionPercent := "80" |}])))) /\
  shifts t1 = shifts Sample.db /\
  sent t1 =
    commit_sent :: statement_sent (INSERT_employees "Cy" "80")
    :: sent Sample.db.
Proof.
  apply (createEmployee_then_view (Sample.employee_post "Cy" "80")
           Sample.db "Cy" "80"); reflexivity.
Defined.

Lemma updateShift_then_edit_witness :
  let request := Sample.shift_post "Early" "06:00" "14:00" "8" in
  let t1 := snd (updateShift 1 request Sample.db) in
  fst (updateShift 1 request Sample.db) = Ret (redirected "/viewShifts") /\
  ((exists r, In r (shifts Sample.db) /\ Shift.Id r = 1) ->
   fst (editShifts 1 t1) =
     Ret (rendered "editShifts.html"
            (row_argument
               (Some (shift_row
                        {| Shift.Id := 1; Shift.Name := "Early";
                           Shift.StartTime := "06:00";
                           Shift.EndTime := "14:00";
                           Shift.Length := "8" |}))))) /\
  ((forall r, In r (shifts Sample.db) -> Shift.Id r <> 1) ->
   shifts t1 = shifts Sample.db /\
   fst (editShifts 1 t1) =
     Ret (rendered "editShifts.html" (row_argument None))).
Proof.
  apply (updateShift_then_edit 1
           (Sample.shift_post "Early" "06:00" "14:00" "8")
           Sample.db "Early" "06:00" "14:00" "8"); reflexivity.
Defined.

Lemma updateShift_frame_witness :
  let request := Sample.shift_post "Early" "06:00" "14:00" "8" in
  let t1 := snd (updateShift 7 request Sample.db) in
  map Shift.Id (shifts t1) = map Shift.Id (shifts Sample.db) /\
  (forall k r, nth_error (shifts Sample.db) k = Some r ->
               Shift.Id r <> 7 ->
               nth_error (shifts t1) k = Some r) /\
  shifts_next_Id t1 = shifts_next_Id Sample.db /\
  employees t1 = employees Sample.db /\
  employees_next_Id t1 = employees_next_Id Sample.db /\
  sent t1 =
    commit_sent
    :: statement_sent (UPDATE_shifts "Early" "06:00" "14:00" "8" 7)
    :: sent Sample.db.
Proof.
  apply (updateShift_frame 7
           (Sample.shift_post "Early" "06:00" "14:00" "8")
           Sample.db "Early" "06:00" "14:00" "8"); reflexivity.
Defined.

Lemma createShift_then_view_witness :
  let request := Sample.shift_post "Night" "23:00" "07:00" "8" in
  let t1 := snd (createShift request Sample.db) in
  fst (createShift request Sample.db) = Ret (redirected "/viewShifts") /\
  fst (viewShifts t1) =
    Ret (rendered "viewShifts.html"
           (rows_argument
              (map shift_row
                   (shifts Sample.db ++
                    [{| Shift.Id := shifts_next_Id Sample.db;
                        Shift.Name := "Night";
                        Shift.StartTime := "23:00";
                        Shift.EndTime := "07:00";
                        Shift.Length := "8" |}])))) /\
  employees t1 = employees Sample.db /\
  sent t1 =
    commit_sent
    :: statement_sent (INSERT_shifts "Night" "23:00" "07:00" "8")
    :: sent Sample.db.
Proof.
  apply (createShift_then_view
           (Sample.shift_post "Night" "23:00" "07:00" "8")
           Sample.db "Night" "23:00" "07:00" "8"); reflexivity.
Defined.

Lemma pages_missing_field_witness :
  (createEmployee (Sample.shift_post "Night" "23:00" "07:00" "8") Sample.db =
     (Raise (BadRequestKeyError "PositionPercent"), Sample.db) /\
   updateEmployee 1 (Sample.shift_post "Night" "23:00" "07:00" "8") Sample.db =
     (Raise (BadRequestKeyError "PositionPercent"), Sample.db)) /\
  (createShift (Sample.employee_post "Cy" "80") Sample.db =
     (Raise (BadRequestKeyError "StartTime"), Sample.db) /\
   updateShift 1 (Sample.employee_post "Cy" "80") Sample.db =
     (Raise (BadRequestKeyError "StartTime"), Sample.db)).
Proof.
  split.
  - apply (proj1 (pages_missing_field 1
                    (Sample.shift_post "Night" "23:00" "07:00" "8")
                    Sample.db "PositionPercent")).
    reflexivity.
  - apply (proj2 (pages_missing_field 1 (Sample.employee_post "Cy" "80")
                    Sample.db "StartTime")).
    reflexivity.
Defined.

Lemma get_rotations_one_event_each_witness :
  exists events,
    fst (get_rotations Sample.isoformat Sample.db) = Ret (json_list events) /\
    (length events <= length (rotations Sample.db))%nat /\
    ((forall r, In r (rotations Sample.db) ->
                (exists e, In e (employees Sample.db) /\
                           Employee.Id e = Employee_FK_Id r) /\
                (exists s, In s (shifts Sample.db) /\
                           Shift.Id s = Shift_FK_Id r)) ->
     length events = length (rotations Sample.db)).
Proof.
  apply (get_rotations_one_event_each Sample.isoformat Sample.db).
  - apply List.NoDup_cons; [intros [H|[]]; discriminate H|].
    apply List.NoDup_cons; [intros [] | apply List.NoDup_nil].
  - apply List.NoDup_cons; [intros [] | apply List.NoDup_nil].
Defined.

Lemma get_rotations_inner_join_witness :
  let events := [{| title := "Ada (Day)"; start := "2025-01-06" |};
                 {| title := "Bo (Day)"; start := "2025-01-06" |}] in
  let t' := snd (get_rotations Sample.isoformat Sample.db) in
  employees t' = employees Sample.db /\
  shifts t' = shifts Sample.db /\
  rotations t' = rotations Sample.db /\
  forall ev,
    In ev events <->
    exists r e s,
      In r (rotations Sample.db) /\ In e (employees Sample.db) /\
      In s (shifts Sample.db) /\
      Employee_FK_Id r = Employee.Id e /\
      Shift_FK_Id r = Shift.Id s /\
      ev = event_of Sample.isoformat (rotation_date r) (Employee.Name e)
             (Shift.Name s).
Proof.
  intros events t'.
  apply (get_rotations_inner_join Sample.isoformat Sample.db events t').
  vm_compute. reflexivity.
Defined.
